(** * SAP announcer and listener: a shallow embedding

    The development follows the four Python programs of the repository:

    - [sap_sender.py] and [sender.py]: the announcers ([sap_header], the
      send loops and the [shutdown] handler);
    - [sap_receiver.py] and [sap_discovery.py]: the listeners (header
      parsing, [parse_title], the [seen] table and the [sweeper]).

    Python values are modelled as follows.  [bytes] is a list of
    [Byte.byte]; [str] is a list of Unicode code points held in [Z]; [int]
    is [Z]; a [dict] is an association list in insertion order.  The
    clock [time.time()] is read as an integer number of ticks: the
    rounding of floating point subtraction is outside the model.  The file
    system reached through [open] and [Path.unlink] is an abstract world
    whose operations may raise. *)

From Stdlib Require Import ZArith List Bool Lia.
From Stdlib.Strings Require Import String Ascii Byte.
From Stdlib Require Import DecimalString.
Import ListNotations.

Local Open Scope Z_scope.

(** ** Python library functions used by the programs *)

Module Py.

Definition bytes := list byte.
Definition str := list Z.

Definition b2z (b : byte) : Z := Z.of_N (Byte.to_N b).

Definition z2b (z : Z) : byte :=
  match Byte.of_N (Z.to_N (z mod 256)) with
  | Some b => b
  | None => x00
  end.

(** An ASCII literal as a [str] and as [bytes]. *)
Definition lit (s : string) : str :=
  map (fun a => Z.of_N (N_of_ascii a)) (list_ascii_of_string s).

Definition blit (s : string) : bytes := list_byte_of_string s.

(** [s[i:]] and [s[:i]] for [0 <= i]: slicing never raises. *)
Definition slice_from {A} (i : Z) (s : list A) : list A := skipn (Z.to_nat i) s.
Definition slice_to {A} (i : Z) (s : list A) : list A := firstn (Z.to_nat i) s.

Definition len {A} (s : list A) : Z := Z.of_nat (List.length s).

(** *** [struct.pack("!BBH", ...)] and [struct.unpack("!BBH", ...)] *)

Definition pack_BBH (b0 auth_len msg_id : Z) : bytes :=
  [z2b b0; z2b auth_len; z2b (Z.shiftr msg_id 8); z2b (Z.land msg_id 255)].

Definition unpack_BBH (b : bytes) : option (Z * Z * Z) :=
  match b with
  | [c0; c1; c2; c3] => Some (b2z c0, b2z c1, Z.lor (Z.shiftl (b2z c2) 8) (b2z c3))
  | _ => None
  end.

(** [int.from_bytes(b, "big")]. *)
Definition int_from_bytes_big (b : bytes) : Z :=
  fold_left (fun acc c => Z.lor (Z.shiftl acc 8) (b2z c)) b 0.

(** *** [hashlib.sha1] (FIPS 180-4) on 32-bit words held in [Z] *)

Definition w32 (x : Z) : Z := Z.land x 4294967295.
Definition add32 (x y : Z) : Z := w32 (x + y).
Definition rotl32 (n x : Z) : Z :=
  w32 (Z.lor (Z.shiftl x n) (Z.shiftr x (32 - n))).
Definition not32 (x : Z) : Z := Z.lxor x 4294967295.

Fixpoint be_bytes (n : nat) (x : Z) : list Z :=
  match n with
  | O => []
  | S k => Z.land (Z.shiftr x (8 * Z.of_nat k)) 255 :: be_bytes k x
  end.

Definition sha1_pad (msg : list Z) : list Z :=
  let l := Z.of_nat (List.length msg) in
  let k := (55 - l) mod 64 in
  msg ++ [128] ++ repeat 0 (Z.to_nat k) ++ be_bytes 8 (8 * l).

Fixpoint be_words (n : nat) (bs : list Z) : list Z :=
  match n with
  | O => []
  | S k =>
      match bs with
      | a :: b :: c :: d :: r =>
          Z.lor (Z.shiftl a 24) (Z.lor (Z.shiftl b 16) (Z.lor (Z.shiftl c 8) d))
            :: be_words k r
      | _ => []
      end
  end.

(** The message schedule, most recent word first. *)
Fixpoint sha1_extend (n : nat) (rw : list Z) : list Z :=
  match n with
  | O => rw
  | S k =>
      let x := Z.lxor (nth 2 rw 0) (Z.lxor (nth 7 rw 0) (Z.lxor (nth 13 rw 0) (nth 15 rw 0))) in
      sha1_extend k (rotl32 1 x :: rw)
  end.

Definition sha1_schedule (block : list Z) : list Z :=
  rev (sha1_extend 64 (rev (be_words 16 block))).

Definition sha1_f (t : Z) (b c d : Z) : Z :=
  if t <? 20 then Z.lor (Z.land b c) (Z.land (not32 b) d)
  else if t <? 40 then Z.lxor b (Z.lxor c d)
  else if t <? 60 then Z.lor (Z.land b c) (Z.lor (Z.land b d) (Z.land c d))
  else Z.lxor b (Z.lxor c d).

Definition sha1_k (t : Z) : Z :=
  if t <? 20 then 1518500249
  else if t <? 40 then 1859775393
  else if t <? 60 then 2400959708
  else 3395469782.

Definition sha1_state := (Z * Z * Z * Z * Z)%type.

Fixpoint sha1_rounds (t : Z) (ws : list Z) (s : sha1_state) : sha1_state :=
  match ws with
  | [] => s
  | w :: ws' =>
      let '(a, b, c, d, e) := s in
      let tmp := add32 (add32 (add32 (add32 (rotl32 5 a) (sha1_f t b c d)) e) (sha1_k t)) w in
      sha1_rounds (t + 1) ws' (tmp, a, rotl32 30 b, c, d)
  end.

Definition sha1_block (s : sha1_state) (block : list Z) : sha1_state :=
  let '(h0, h1, h2, h3, h4) := s in
  let '(a, b, c, d, e) := sha1_rounds 0 (sha1_schedule block) s in
  (add32 h0 a, add32 h1 b, add32 h2 c, add32 h3 d, add32 h4 e).

Fixpoint sha1_blocks (n : nat) (s : sha1_state) (bs : list Z) : sha1_state :=
  match n with
  | O => s
  | S k => sha1_blocks k (sha1_block s (firstn 64 bs)) (skipn 64 bs)
  end.

Definition sha1_init : sha1_state :=
  (1732584193, 4023233417, 2562383102, 271733878, 3285377520).

Definition sha1_digest (msg : bytes) : bytes :=
  let p := sha1_pad (map b2z msg) in
  let '(h0, h1, h2, h3, h4) := sha1_blocks (Nat.div (List.length p) 64) sha1_init p in
  map z2b (be_bytes 4 h0 ++ be_bytes 4 h1 ++ be_bytes 4 h2 ++ be_bytes 4 h3 ++ be_bytes 4 h4).

(** *** [bytes.decode("utf-8", "replace")]

    CPython's decoder: an ill-formed sequence is replaced by one U+FFFD
    per maximal valid prefix, and decoding resumes at the first byte
    that could not continue the sequence.  A sequence cut short by the
    end of the input gives a single U+FFFD. *)

Definition is_cont (b : Z) : bool := (128 <=? b) && (b <=? 191).
Definition lo6 (b : Z) : Z := Z.land b 63.

Fixpoint utf8_replace (bs : list Z) : str :=
  match bs with
  | [] => []
  | c0 :: r0 =>
      if c0 <? 128 then c0 :: utf8_replace r0
      else if c0 <? 194 then 65533 :: utf8_replace r0
      else if c0 <? 224 then
        match r0 with
        | [] => [65533]
        | c1 :: r1 =>
            if is_cont c1
            then Z.lor (Z.shiftl (Z.land c0 31) 6) (lo6 c1) :: utf8_replace r1
            else 65533 :: utf8_replace r0
        end
      else if c0 <? 240 then
        match r0 with
        | [] => [65533]
        | c1 :: r1 =>
            if negb (is_cont c1) || (if c1 <? 160 then c0 =? 224 else c0 =? 237)
            then 65533 :: utf8_replace r0
            else
              match r1 with
              | [] => [65533]
              | c2 :: r2 =>
                  if is_cont c2
                  then Z.lor (Z.shiftl (Z.land c0 15) 12)
                         (Z.lor (Z.shiftl (lo6 c1) 6) (lo6 c2)) :: utf8_replace r2
                  else 65533 :: utf8_replace r1
              end
        end
      else if c0 <? 245 then
        match r0 with
        | [] => [65533]
        | c1 :: r1 =>
            if negb (is_cont c1) || (if c1 <? 144 then c0 =? 240 else c0 =? 244)
            then 65533 :: utf8_replace r0
            else
              match r1 with
              | [] => [65533]
              | c2 :: r2 =>
                  if negb (is_cont c2) then 65533 :: utf8_replace r1
                  else
                    match r2 with
                    | [] => [65533]
                    | c3 :: r3 =>
                        if is_cont c3
                        then Z.lor (Z.shiftl (Z.land c0 7) 18)
                               (Z.lor (Z.shiftl (lo6 c1) 12)
                                  (Z.lor (Z.shiftl (lo6 c2) 6) (lo6 c3)))
                               :: utf8_replace r3
                        else 65533 :: utf8_replace r2
                    end
              end
        end
      else 65533 :: utf8_replace r0
  end.

Definition decode_utf8_replace (b : bytes) : str := utf8_replace (map b2z b).

(** *** [str] methods *)

(** [str.isspace] on one code point. *)
Definition isspace (c : Z) : bool :=
  ((9 <=? c) && (c <=? 13)) || ((28 <=? c) && (c <=? 32))
  || (c =? 133) || (c =? 160) || (c =? 5760)
  || ((8192 <=? c) && (c <=? 8202))
  || (c =? 8232) || (c =? 8233) || (c =? 8239) || (c =? 8287) || (c =? 12288).

Fixpoint lstrip (s : str) : str :=
  match s with
  | [] => []
  | c :: r => if isspace c then lstrip r else s
  end.

Definition rstrip (s : str) : str := rev (lstrip (rev s)).
Definition strip (s : str) : str := rstrip (lstrip s).

(** The line boundaries of [str.splitlines], CR LF apart. *)
Definition is_linebreak (c : Z) : bool :=
  ((10 <=? c) && (c <=? 13)) || ((28 <=? c) && (c <=? 30))
  || (c =? 133) || (c =? 8232) || (c =? 8233).

(** [cur] holds the current line, reversed. *)
Fixpoint splitlines_from (cur : str) (s : str) : list str :=
  match s with
  | [] => match cur with [] => [] | _ => [rev cur] end
  | c :: r =>
      if c =? 13 then
        match r with
        | d :: r' => if d =? 10 then rev cur :: splitlines_from [] r'
                     else rev cur :: splitlines_from [] r
        | [] => rev cur :: splitlines_from [] r
        end
      else if is_linebreak c then rev cur :: splitlines_from [] r
      else splitlines_from (c :: cur) r
  end.

Definition splitlines (s : str) : list str := splitlines_from [] s.

Fixpoint startswith (s prefix : str) : bool :=
  match prefix, s with
  | [], _ => true
  | p :: prefix', c :: s' => (c =? p) && startswith s' prefix'
  | _ :: _, [] => false
  end.

Definition endswith (s suffix : str) : bool := startswith (rev s) (rev suffix).

(** [s.replace(old, new)] for one-character [old] and [new]. *)
Definition replace_char (old new : Z) (s : str) : str :=
  map (fun c => if c =? old then new else c) s.

(** [str(n)] and [f"{n}"] for an [int]. *)
Definition str_of_int (n : Z) : str := lit (NilZero.string_of_int (Z.to_int n)).

(** Truthiness of an optional [str]: [x or y]. *)
Definition or_str (x : option str) (y : str) : str :=
  match x with
  | Some (c :: r) => c :: r
  | _ => y
  end.

(** *** [pathlib] on POSIX: [str(Path(a) / b)] *)

Definition posix_join (a b : str) : str :=
  if startswith b [47] then b
  else match a with
       | [] => b
       | _ => if endswith a [47] then a ++ b else a ++ [47] ++ b
       end.

Fixpoint split_sep_from (cur : str) (s : str) : list str :=
  match s with
  | [] => [rev cur]
  | c :: r => if c =? 47 then rev cur :: split_sep_from [] r
              else split_sep_from (c :: cur) r
  end.

Definition path_root (p : str) : str :=
  match p with
  | 47 :: 47 :: 47 :: _ => [47]
  | 47 :: 47 :: _ => [47; 47]
  | 47 :: _ => [47]
  | _ => []
  end.

Definition is_part (x : str) : bool :=
  match x with
  | [] => false
  | [46] => false
  | _ => true
  end.

Definition path_parts (p : str) : list str := filter is_part (split_sep_from [] p).

Fixpoint join_sep (parts : list str) : str :=
  match parts with
  | [] => []
  | [x] => x
  | x :: rest => x ++ [47] ++ join_sep rest
  end.

Definition path_str (p : str) : str :=
  match path_root p, path_parts p with
  | [], [] => [46]
  | root, parts => root ++ join_sep parts
  end.

Definition path_div (a b : str) : str := path_str (posix_join a b).

(** *** [dict] keyed by [int], in insertion order *)

Definition dict (V : Type) := list (Z * V).

Fixpoint dict_get {V} (k : Z) (d : dict V) : option V :=
  match d with
  | [] => None
  | (k', v) :: r => if k' =? k then Some v else dict_get k r
  end.

Definition dict_mem {V} (k : Z) (d : dict V) : bool :=
  match dict_get k d with
  | Some _ => true
  | None => false
  end.

(** [d[k] = v]: a key already present keeps its place. *)
Fixpoint dict_set {V} (k : Z) (v : V) (d : dict V) : dict V :=
  match d with
  | [] => [(k, v)]
  | (k', v') :: r => if k' =? k then (k, v) :: r else (k', v') :: dict_set k v r
  end.

Definition dict_del {V} (k : Z) (d : dict V) : dict V :=
  filter (fun kv => negb (fst kv =? k)) d.

(** [d.pop(k, None)]: the value removed, if any, and the dict left. *)
Definition dict_pop {V} (k : Z) (d : dict V) : option V * dict V :=
  (dict_get k d, dict_del k d).

(** *** [str.encode("utf-8")] and [str.join]

    The encoder is strict: a surrogate raises [UnicodeEncodeError], here
    [None]; so does a number that is no code point. *)

Definition utf8_encode_char (c : Z) : option (list Z) :=
  if c <? 0 then None
  else if c <? 128 then Some [c]
  else if c <? 2048 then
    Some [Z.lor 192 (Z.shiftr c 6); Z.lor 128 (Z.land c 63)]
  else if c <? 65536 then
    if (55296 <=? c) && (c <=? 57343) then None
    else Some [Z.lor 224 (Z.shiftr c 12);
               Z.lor 128 (Z.land (Z.shiftr c 6) 63);
               Z.lor 128 (Z.land c 63)]
  else if c <? 1114112 then
    Some [Z.lor 240 (Z.shiftr c 18);
          Z.lor 128 (Z.land (Z.shiftr c 12) 63);
          Z.lor 128 (Z.land (Z.shiftr c 6) 63);
          Z.lor 128 (Z.land c 63)]
  else None.

Fixpoint utf8_encode (s : str) : option (list Z) :=
  match s with
  | [] => Some []
  | c :: r =>
      match utf8_encode_char c, utf8_encode r with
      | Some a, Some b => Some (a ++ b)
      | _, _ => None
      end
  end.

Definition encode_utf8 (s : str) : option bytes := option_map (map z2b) (utf8_encode s).

(** [sep.join(parts)]. *)
Fixpoint str_join (sep : str) (parts : list str) : str :=
  match parts with
  | [] => []
  | [x] => x
  | x :: rest => x ++ sep ++ str_join sep rest
  end.

(** The code points a [str] can hold and UTF-8 can encode. *)
Definition is_scalar (c : Z) : bool :=
  (0 <=? c) && (c <? 1114112) && negb ((55296 <=? c) && (c <=? 57343)).

Definition no_linebreak (s : str) : bool := forallb (fun c => negb (is_linebreak c)) s.

End Py.

Import Py.

(** ** The announcers: [sap_sender.py] and [sender.py] *)

Module Sender.

Definition SAP_GRP : str := lit "224.2.127.254".
Definition SAP_PORT : Z := 9875.
Definition ANN_MIN : Z := 60.
Definition ANN_MAX : Z := 120.

(** An IPv4 address in the packed form that [socket.inet_aton] returns. *)
Record ipv4 := IPv4 { ip0 : byte; ip1 : byte; ip2 : byte; ip3 : byte }.

Definition inet_aton (a : ipv4) : bytes := [ip0 a; ip1 a; ip2 a; ip3 a].

Definition addr_any : ipv4 := IPv4 x00 x00 x00 x00.

(** [sap_header(sdp_bytes, src_ipv4)], the same in both programs. *)
Definition sap_header (sdp_bytes : bytes) (src_ipv4 : ipv4) : bytes :=
  let V := 1 in
  let A := 0 in
  let R := 0 in
  let T := 0 in
  let E := 0 in
  let C := 0 in
  let b0 := Z.lor (Z.shiftl V 5) (Z.lor (Z.shiftl A 4) (Z.lor (Z.shiftl R 3)
              (Z.lor (Z.shiftl T 2) (Z.lor (Z.shiftl E 1) C)))) in
  let auth_len := 0 in
  let msg_id := int_from_bytes_big (slice_to 2 (sha1_digest sdp_bytes)) in
  let hdr := pack_BBH b0 auth_len msg_id in
  hdr ++ inet_aton src_ipv4.

(** The packet both programs send: [sap_header(sdp, src) + sdp]. *)
Definition packet (sdp : bytes) (src : ipv4) : bytes := sap_header sdp src ++ sdp.

(** How long a [time.sleep] lasts. *)
Inductive delay :=
| Seconds (n : Z)
| Configured
| Uniform (lo hi : Z).

(** What an announcer does to the outside world. *)
Inductive action :=
| SendTo (pkt : bytes) (group : str) (port : Z)
| Sleep (d : delay)
| PrintShutdown
| ProcTerminate
| ProcWait (timeout : Z)
| ProcKill
| Exit (code : Z).

Definition send_all (pkts : list bytes) : list action :=
  map (fun p => SendTo p SAP_GRP SAP_PORT) pkts.

Fixpoint times {A} (n : nat) (body : list A) : list A :=
  match n with
  | O => []
  | S k => body ++ times k body
  end.

(** The first [n] actions of a program that runs [startup] and then
    [body] for ever: the program as it stands when it is interrupted. *)
Definition interrupted_after {A} (n : nat) (startup body : list A) : list A :=
  firstn n (startup ++ times n body).

(** [sender.py]: [send_sap_loop(name, sdp, src_ip, interval)], in a run
    where every [sendto] and [time.sleep] returns, as it stands when a
    signal interrupts it after [n] actions.  A [sendto] that raises, or
    a [time.sleep] that raises on a negative [interval], ends the loop
    by that exception instead; such runs are not among these traces. *)
Definition send_sap_loop (sdp : bytes) (src_ip : ipv4) (n : nat) : list action :=
  let pkt := packet sdp src_ip in
  interrupted_after n
    (times 3 [SendTo pkt SAP_GRP SAP_PORT; Sleep (Seconds 1)])
    [SendTo pkt SAP_GRP SAP_PORT; Sleep Configured].

(** How [proc.terminate(); proc.wait(timeout=3)] ends. *)
Inductive terminate_outcome :=
| Terminated
| TerminateRaises (kill_raises : bool)
| WaitRaises (kill_raises : bool).

(** [shutdown(sig, frame)]: it always ends in [sys.exit(0)]. *)
Definition shutdown (o : terminate_outcome) : list action :=
  [PrintShutdown] ++
  match o with
  | Terminated => [ProcTerminate; ProcWait 3]
  | TerminateRaises _ => [ProcTerminate; ProcKill]
  | WaitRaises _ => [ProcTerminate; ProcWait 3; ProcKill]
  end ++ [Exit 0].

(** [sender.py] stopped by SIGINT or SIGTERM after [n] actions of the
    send loop.  The handler's [sys.exit(0)] raises [SystemExit] inside
    the [try] of [main], whose [finally] calls [shutdown] once more. *)
Definition sender_run (sdp : bytes) (src_ip : ipv4) (n : nat)
           (o1 o2 : terminate_outcome) : list action :=
  send_sap_loop sdp src_ip n ++ shutdown o1 ++ shutdown o2.

Definition SDPS : list bytes :=
  [ blit "v=0
o=senderA 1 1 IN IP4 192.0.2.10
s=Feed A - Ball
i=H.264 RTP
t=0 0
c=IN IP4 239.255.0.10/32
m=video 5004 RTP/AVP 96
a=rtpmap:96 H264/90000
a=fmtp:96 packetization-mode=1;profile-level-id=42e01f
";
    blit "v=0
o=senderB 1 1 IN IP4 192.0.2.11
s=Feed B - SMPTE
i=H.264 RTP
t=0 0
c=IN IP4 239.255.0.11/32
m=video 5004 RTP/AVP 96
a=rtpmap:96 H264/90000
a=fmtp:96 packetization-mode=1;profile-level-id=42e01f
" ].

(** [sap_sender.py]: [main()], interrupted after [n] actions.  The
    program installs no handler: an interrupt ends it where it stands. *)
Definition sap_sender_run (n : nat) : list action :=
  let pkts := map (fun sdp => packet sdp addr_any) SDPS in
  interrupted_after n
    (times 3 (send_all pkts ++ [Sleep (Seconds 1)]))
    (send_all pkts ++ [Sleep (Uniform ANN_MIN ANN_MAX)]).

(** [sender.py]: [group_from_name(name)]; [h[0]] and [h[1]] raise
    [IndexError], here [None], on a digest shorter than two bytes. *)
Definition group_from_name (name : str) : option str :=
  match encode_utf8 name with
  | None => None
  | Some b =>
      let h := sha1_digest b in
      match nth_error h 0, nth_error h 1 with
      | Some x, Some y =>
          Some (lit "239.255." ++ str_of_int (b2z x) ++ lit "." ++ str_of_int (b2z y))
      | _, _ => None
      end
  end.

(** The lines [make_sdp] joins; [outbound_ip] is what
    [default_outbound_ip()] returns when it is called. *)
Definition sdp_lines (name group : str) (port pt : Z) (enc : str) (clock : Z)
           (profile_level_id : str) (source_ip : option str) (ttl : Z)
           (outbound_ip : str) : list str :=
  let conn := lit "c=IN IP4 " ++ group ++ lit "/" ++ str_of_int ttl in
  let lines :=
    [ lit "v=0";
      lit "o=sender 1 1 IN IP4 " ++ or_str source_ip outbound_ip;
      lit "s=" ++ name;
      lit "i=" ++ enc ++ lit " RTP";
      lit "t=0 0";
      conn;
      lit "m=video " ++ str_of_int port ++ lit " RTP/AVP " ++ str_of_int pt;
      lit "a=rtpmap:" ++ str_of_int pt ++ lit " " ++ enc ++ lit "/" ++ str_of_int clock;
      lit "a=fmtp:" ++ str_of_int pt ++ lit " packetization-mode=1;profile-level-id="
          ++ profile_level_id ] in
  match source_ip with
  | Some (c :: r) =>
      lines ++ [lit "a=source-filter: incl IN IP4 " ++ group ++ lit " " ++ (c :: r)]
  | _ => lines
  end.

(** [sender.py]: [make_sdp(...)]. *)
Definition make_sdp (name group : str) (port pt : Z) (enc : str) (clock : Z)
           (profile_level_id : str) (source_ip : option str) (ttl : Z)
           (outbound_ip : str) : option bytes :=
  encode_utf8
    (str_join [10] (sdp_lines name group port pt enc clock profile_level_id
                      source_ip ttl outbound_ip) ++ [10]).

End Sender.

(** ** The listeners: [sap_discovery.py] and [sap_receiver.py] *)

Module Listener.

(** The header fields and the text both listeners read from a datagram
    of at least 8 bytes. *)
Record parsed := Parsed {
  b0 : Z;
  auth_len : Z;
  msg_id : Z;
  deletion : Z;
  off : Z;
  payload : bytes;
  sdp_text : str
}.

Definition parse (pkt : bytes) : option parsed :=
  if len pkt <? 8 then None
  else
    match unpack_BBH (slice_to 4 pkt) with
    | Some (b0, auth_len, msg_id) =>
        let deletion := Z.land (Z.shiftr b0 2) 1 in
        let off := 4 + 4 in
        let off := off + auth_len * 4 in
        let payload := slice_from off pkt in
        Some (Parsed b0 auth_len msg_id deletion off payload
                (strip (decode_utf8_replace payload)))
    | None => None
    end.

Fixpoint first_title (lines : list str) : option str :=
  match lines with
  | [] => None
  | line :: rest =>
      if startswith line (lit "s=") then Some (strip (slice_from 2 line))
      else first_title rest
  end.

(** [parse_title(sdp)]. *)
Definition parse_title (sdp : str) : option str := first_title (splitlines sdp).

Definition session_name (msg_id : Z) : str := lit "session_" ++ str_of_int msg_id.

Definition arrow : str := [8594].

End Listener.

(** ** [sap_discovery.py]: the [seen] table, the receive loop and the sweeper *)

Module Discovery.

Import Listener.

Record info := Info {
  title : str;
  path : str;
  last_seen : Z;
  sdp : str
}.

(** Calls on the file system and lines printed.  A sink call carries
    the id whose record it serves and whether the call raised. *)
Inductive effect :=
| SinkWrite (mid : Z) (fpath : str) (content : str) (raised : bool)
| SinkRemove (mid : Z) (fpath : str) (raised : bool)
| Log (line : str).

Definition removed_line (verb : str) (i : info) (mid : Z) : str :=
  verb ++ lit ": " ++ title i ++ lit " (" ++ str_of_int mid ++ lit ") "
       ++ arrow ++ lit " removed " ++ path i.

Definition new_line (title fpath : str) : str :=
  lit "New: " ++ title ++ lit " " ++ arrow ++ lit " wrote " ++ fpath.

Section Main.

(** The file system: [fs_write fpath content] is
    [open(fpath, "w")] followed by [f.write(content)], and
    [fs_unlink fpath] is [Path(fpath).unlink(missing_ok=True)]; each
    gives the world after the call and whether it raised. *)
Variable World : Type.
Variable fs_write : str -> str -> World -> World * bool.
Variable fs_unlink : str -> World -> World * bool.

(** [args.output_dir] and [args.expire_sec]. *)
Variable out_dir : str.
Variable expire_sec : Z.

Record state := State { seen : dict info; world : World }.

(** The receive loop goes on, or an exception left [main]. *)
Inductive outcome :=
| Running (st : state)
| Raised (st : state).

(** The [if deletion:] branch. *)
Definition on_delete (msg_id : Z) (st : state) : state * list effect :=
  let '(info, seen') := dict_pop msg_id (seen st) in
  match info with
  | Some i =>
      let '(w, raised) := fs_unlink (path i) (world st) in
      (State seen' w,
       [SinkRemove msg_id (path i) raised; Log (removed_line (lit "Deleted") i msg_id)])
  | None => (State seen' (world st), [Log (lit "Deleted " ++ str_of_int msg_id)])
  end.

Definition title_of (p : parsed) : str :=
  or_str (parse_title (sdp_text p)) (session_name (msg_id p)).

Definition fname_of (title : str) : str := replace_char 32 95 title ++ lit ".sdp".

Definition fpath_of (title : str) : str := path_div out_dir (fname_of title).

(** The rest of the loop body, for an announcement. *)
Definition on_announce (p : parsed) (now : Z) (st : state) : outcome * list effect :=
  let title := title_of p in
  let fpath := fpath_of title in
  let first_time := negb (dict_mem (msg_id p) (seen st)) in
  let seen' := dict_set (msg_id p) (Info title fpath now (sdp_text p)) (seen st) in
  if first_time then
    let content := sdp_text p ++ [10] in
    let '(w, raised) := fs_write fpath content (world st) in
    if raised
    then (Raised (State seen' w), [SinkWrite (msg_id p) fpath content true])
    else (Running (State seen' w),
          [SinkWrite (msg_id p) fpath content false; Log (new_line title fpath)])
  else (Running (State seen' (world st)), []).

(** One turn of [while True] in [main]: [now] is what [time.time()]
    returns if it is called. *)
Definition on_packet (pkt : bytes) (now : Z) (st : state) : outcome * list effect :=
  match parse pkt with
  | None => (Running st, [])
  | Some p =>
      if negb (deletion p =? 0)
      then let '(st', eff) := on_delete (msg_id p) st in (Running st', eff)
      else on_announce p now st
  end.

Definition expired (now : Z) (i : info) : bool := now - last_seen i >? expire_sec.

(** The first loop of [sweeper]. *)
Definition to_delete (now : Z) (d : dict info) : list Z :=
  map fst (filter (fun kv => expired now (snd kv)) d).

(** The second loop of [sweeper]. *)
Fixpoint sweep (mids : list Z) (st : state) : state * list effect :=
  match mids with
  | [] => (st, [])
  | mid :: rest =>
      let '(info, seen') := dict_pop mid (seen st) in
      match info with
      | Some i =>
          let '(w, raised) := fs_unlink (path i) (world st) in
          let '(st', eff) := sweep rest (State seen' w) in
          (st', SinkRemove mid (path i) raised
                  :: Log (removed_line (lit "Expired") i mid) :: eff)
      | None => sweep rest (State seen' (world st))
      end
  end.

(** One turn of [while True] in [sweeper] when [main] executes nothing
    between its statements.  The sweeper is a thread of its own and
    takes no lock: [Threads] below has its statements interleaved with
    those of [main]. *)
Definition sweeper_tick (now : Z) (st : state) : state * list effect :=
  sweep (to_delete now (seen st)) st.

Inductive event :=
| Datagram (pkt : bytes) (now : Z)
| Tick (now : Z).

Definition step (e : event) (st : state) : outcome * list effect :=
  match e with
  | Datagram pkt now => on_packet pkt now st
  | Tick now => let '(st', eff) := sweeper_tick now st in (Running st', eff)
  end.

Fixpoint run (evs : list event) (st : state) : outcome * list effect :=
  match evs with
  | [] => (Running st, [])
  | e :: rest =>
      match step e st with
      | (Running st', eff) => let '(o, eff') := run rest st' in (o, eff ++ eff')
      | (Raised st', eff) => (Raised st', eff)
      end
  end.

(** [Remove] applied to each id of a list in turn. *)
Fixpoint delete_all (mids : list Z) (st : state) : state * list effect :=
  match mids with
  | [] => (st, [])
  | mid :: rest =>
      let '(st1, eff1) := on_delete mid st in
      let '(st2, eff2) := delete_all rest st1 in
      (st2, eff1 ++ eff2)
  end.

Definition state_of (o : outcome) : state :=
  match o with
  | Running st => st
  | Raised st => st
  end.

End Main.

Arguments State {World} _ _.
Arguments seen {World} _.
Arguments world {World} _.
Arguments Running {World} _.
Arguments Raised {World} _.
Arguments state_of {World} _.

Definition is_write (mid : Z) (e : effect) : bool :=
  match e with
  | SinkWrite m _ _ _ => m =? mid
  | _ => false
  end.

Definition is_remove (mid : Z) (e : effect) : bool :=
  match e with
  | SinkRemove m _ _ => m =? mid
  | _ => false
  end.

(** The keys of a [dict] are distinct. *)
Definition well_formed {World} (st : state World) : Prop := NoDup (map fst (seen st)).

Definition is_sink_call (e : effect) : bool :=
  match e with
  | Log _ => false
  | _ => true
  end.

Definition sink_calls (eff : list effect) : list effect := filter is_sink_call eff.

Definition writes (mid : Z) (eff : list effect) : nat :=
  List.length (filter (is_write mid) eff).

Definition removes (mid : Z) (eff : list effect) : nat :=
  List.length (filter (is_remove mid) eff).

(** A file system for examples: the files and their contents; no call
    raises. *)
Definition files := list (str * str).

Fixpoint str_eqb (a b : str) : bool :=
  match a, b with
  | [], [] => true
  | x :: a', y :: b' => (x =? y) && str_eqb a' b'
  | _, _ => false
  end.

Definition files_write (fpath content : str) (w : files) : files * bool :=
  ((fpath, content) :: filter (fun f => negb (str_eqb (fst f) fpath)) w, false).

Definition files_unlink (fpath : str) (w : files) : files * bool :=
  (filter (fun f => negb (str_eqb (fst f) fpath)) w, false).

(** A file system on which every call raises and changes nothing. *)
Definition broken_write (fpath content : str) (w : unit) : unit * bool := (w, true).
Definition broken_unlink (fpath : str) (w : unit) : unit * bool := (w, true).

End Discovery.

(** ** [sap_receiver.py]: the receive loop *)

Module Receiver.

Import Listener.

Inductive effect :=
| FileWrite (fname : str) (content : str) (raised : bool)
| Log (line : str).

Definition fname_of (title : option str) (msg_id : Z) : str :=
  replace_char 32 95 (or_str title (session_name msg_id)) ++ lit ".sdp".

Section Main.

Variable World : Type.
Variable fs_write : str -> str -> World -> World * bool.

Record state := State { seen : dict str; world : World }.

Inductive outcome :=
| Running (st : state)
| Raised (st : state).

Definition on_packet (pkt : bytes) (st : state) : outcome * list effect :=
  match parse pkt with
  | None => (Running st, [])
  | Some p =>
      if negb (deletion p =? 0) then
        (Running (State (snd (dict_pop (msg_id p) (seen st))) (world st)),
         [Log (lit "Deleted " ++ str_of_int (msg_id p))])
      else if negb (dict_mem (msg_id p) (seen st)) then
        let seen' := dict_set (msg_id p) (sdp_text p) (seen st) in
        let title := parse_title (sdp_text p) in
        let fname := fname_of title (msg_id p) in
        let content := sdp_text p ++ [10] in
        let '(w, raised) := fs_write fname content (world st) in
        if raised
        then (Raised (State seen' w), [FileWrite fname content true])
        else (Running (State seen' w),
              [FileWrite fname content false;
               Log (lit "New: " ++ or_str title (str_of_int (msg_id p))
                      ++ lit " " ++ arrow ++ lit " wrote " ++ fname)])
      else (Running st, [])
  end.

End Main.

Arguments State {World} _ _.
Arguments seen {World} _.
Arguments world {World} _.
Arguments Running {World} _.
Arguments Raised {World} _.

End Receiver.

(** ** What is read off a trace of the announcer *)

Module Wire.

Import Sender Listener.

(** The datagrams a trace sends, in order. *)
Definition sent (tr : list action) : list bytes :=
  flat_map (fun a => match a with SendTo pkt _ _ => [pkt] | _ => [] end) tr.

(** A listener takes the datagram for a deletion. *)
Definition is_delete_packet (pkt : bytes) : bool :=
  match parse pkt with
  | Some q => negb (deletion q =? 0)
  | None => false
  end.

Definition deletes_sent (tr : list action) : nat :=
  List.length (filter is_delete_packet (sent tr)).

(** The datagram [pkt] is read back as payload [p], id [m], originating
    address [a] and type bit [t]. *)
Definition decodes_to (pkt p : bytes) (m : Z) (a : ipv4) (t : Z) : Prop :=
  exists q, parse pkt = Some q /\ payload q = p /\ msg_id q = m
            /\ slice_to 4 (slice_from 4 pkt) = inet_aton a /\ deletion q = t.

End Wire.

(** ** Datagrams and a listener for the scenarios *)

Module Scenario.

Import Discovery.

(** Announcements for id [0x1234] with documents [s=A] and [s=B], with
    the document of scenario A, and the deletion for that id. *)
Definition announce_A : bytes :=
  [x20; x00; x12; x34; x00; x00; x00; x00] ++ blit "s=A".

Definition announce_B : bytes :=
  [x20; x00; x12; x34; x00; x00; x00; x00] ++ blit "s=B".

Definition announce_test : bytes :=
  [x20; x00; x12; x34; x00; x00; x00; x00] ++ blit "v=0
s=Test Session
".

Definition delete_1234 : bytes := [x24; x00; x12; x34; x00; x00; x00; x00].

Definition parsed_A : Listener.parsed :=
  Listener.Parsed 32 0 4660 0 8 (blit "s=A") (lit "s=A").

Definition parsed_delete : Listener.parsed := Listener.Parsed 36 0 4660 1 8 [] [].

(** A listener started with [--output-dir out] and the default
    [--expire-sec 300], on a file system that never raises. *)
Definition start : state files := State [] [].

Definition listen (evs : list event) (st : state files) : outcome files * list effect :=
  run files files_write files_unlink (lit "out") 300 evs st.

(** The same listener on a file system where every call raises. *)
Definition listen_broken (evs : list event) (st : state unit) : outcome unit * list effect :=
  run unit broken_write broken_unlink (lit "out") 300 evs st.

Definition record_A (now : Z) : info := Info (lit "A") (lit "out/A.sdp") now (lit "s=A").

End Scenario.

(** ** [sap_discovery.py] with its two threads

    [main] and [sweeper] run as two threads over the shared [seen] and
    the file system, without a lock.  Each thread is cut at its accesses
    to what is shared: a step of a thread is one such access together
    with the local computation that leads to it.  An event lets one
    thread take its next step; an event for a thread that is not at that
    point does nothing, so every list of events is a schedule. *)

Module Threads.

Import Listener Discovery.

(** Where the receive loop stands. *)
Inductive main_pc :=
| AtRecv
| AtUnlink (msg_id : Z) (info : option info)
| AtAssign (p : parsed) (first_time : bool)
| AtWrite (p : parsed).

(** Where the sweeper stands. *)
Inductive sweeper_pc :=
| AtSleep
| AtPop (to_delete : list Z)
| AtExpire (mid : Z) (info : info) (rest : list Z).

Inductive tevent :=
| Recv (pkt : bytes)
| MainStep (now : Z)
| Scan (now : Z)
| Sweep.

Section Main.

Variable World : Type.
Variable fs_write : str -> str -> World -> World * bool.
Variable fs_unlink : str -> World -> World * bool.
Variable out_dir : str.
Variable expire_sec : Z.

Record tstate := TState {
  shared : state World;
  main : main_pc;
  sweeper : sweeper_pc
}.

(** The process goes on, or the exception of a write ended [main], and
    with it the process, in the given shared state. *)
Inductive toutcome :=
| TRunning (ts : tstate)
| TRaised (st : state World).

(** [main] at [s.recvfrom]: the datagram is read and parsed; a deletion
    pops the record, an announcement tests [msg_id not in seen]. *)
Definition recv (pkt : bytes) (ts : tstate) : tstate :=
  match main ts with
  | AtRecv =>
      match parse pkt with
      | None => ts
      | Some p =>
          if negb (deletion p =? 0) then
            let '(info, seen') := dict_pop (msg_id p) (seen (shared ts)) in
            TState (State seen' (world (shared ts))) (AtUnlink (msg_id p) info) (sweeper ts)
          else
            TState (shared ts)
                   (AtAssign p (negb (dict_mem (msg_id p) (seen (shared ts)))))
                   (sweeper ts)
      end
  | _ => ts
  end.

(** The next statement of [main] after the receive: the guarded unlink
    and its line, the assignment [seen[msg_id] = {...}] with [now] from
    [time.time()], or the write of a new session. *)
Definition main_step (now : Z) (ts : tstate) : toutcome * list effect :=
  match main ts with
  | AtRecv => (TRunning ts, [])
  | AtUnlink mid (Some i) =>
      let '(w, raised) := fs_unlink (path i) (world (shared ts)) in
      (TRunning (TState (State (seen (shared ts)) w) AtRecv (sweeper ts)),
       [SinkRemove mid (path i) raised; Log (removed_line (lit "Deleted") i mid)])
  | AtUnlink mid None =>
      (TRunning (TState (shared ts) AtRecv (sweeper ts)),
       [Log (lit "Deleted " ++ str_of_int mid)])
  | AtAssign p first_time =>
      let title := title_of p in
      let fpath := fpath_of out_dir title in
      let seen' := dict_set (msg_id p) (Info title fpath now (sdp_text p)) (seen (shared ts)) in
      (TRunning (TState (State seen' (world (shared ts)))
                        (if first_time then AtWrite p else AtRecv) (sweeper ts)),
       [])
  | AtWrite p =>
      let title := title_of p in
      let fpath := fpath_of out_dir title in
      let content := sdp_text p ++ [10] in
      let '(w, raised) := fs_write fpath content (world (shared ts)) in
      if raised
      then (TRaised (State (seen (shared ts)) w), [SinkWrite (msg_id p) fpath content true])
      else (TRunning (TState (State (seen (shared ts)) w) AtRecv (sweeper ts)),
            [SinkWrite (msg_id p) fpath content false; Log (new_line title fpath)])
  end.

(** The sweeper at the top of its loop: [now], the snapshot
    [list(seen.items())] and the first loop, which reads the snapshot
    only. *)
Definition scan (now : Z) (ts : tstate) : tstate :=
  match sweeper ts with
  | AtSleep => TState (shared ts) (main ts) (AtPop (to_delete expire_sec now (seen (shared ts))))
  | _ => ts
  end.

(** The next statement of the sweeper in its second loop: the pop, the
    guarded unlink with its line, or the end of the loop. *)
Definition sweep_step (ts : tstate) : tstate * list effect :=
  match sweeper ts with
  | AtSleep => (ts, [])
  | AtPop [] => (TState (shared ts) (main ts) AtSleep, [])
  | AtPop (mid :: rest) =>
      let '(info, seen') := dict_pop mid (seen (shared ts)) in
      match info with
      | Some i => (TState (State seen' (world (shared ts))) (main ts) (AtExpire mid i rest), [])
      | None => (TState (State seen' (world (shared ts))) (main ts) (AtPop rest), [])
      end
  | AtExpire mid i rest =>
      let '(w, raised) := fs_unlink (path i) (world (shared ts)) in
      (TState (State (seen (shared ts)) w) (main ts) (AtPop rest),
       [SinkRemove mid (path i) raised; Log (removed_line (lit "Expired") i mid)])
  end.

Definition tstep (e : tevent) (ts : tstate) : toutcome * list effect :=
  match e with
  | Recv pkt => (TRunning (recv pkt ts), [])
  | MainStep now => main_step now ts
  | Scan now => (TRunning (scan now ts), [])
  | Sweep => let '(ts', eff) := sweep_step ts in (TRunning ts', eff)
  end.

Fixpoint trun (evs : list tevent) (ts : tstate) : toutcome * list effect :=
  match evs with
  | [] => (TRunning ts, [])
  | e :: rest =>
      match tstep e ts with
      | (TRunning ts', eff) => let '(o, eff') := trun rest ts' in (o, eff ++ eff')
      | (TRaised st, eff) => (TRaised st, eff)
      end
  end.

Definition shared_of (o : toutcome) : state World :=
  match o with
  | TRunning ts => shared ts
  | TRaised st => st
  end.

(** A scan at [now] against the record of [mid], if there is one, does
    not find it stale. *)
Definition fresh_at (mid now : Z) (st : state World) : bool :=
  match dict_get mid (seen st) with
  | Some i => now - last_seen i <=? expire_sec
  | None => true
  end.

(** Along the schedule, no scan that takes place finds [mid] stale. *)
Fixpoint fresh_scans (mid : Z) (evs : list tevent) (ts : tstate) : bool :=
  match evs with
  | [] => true
  | e :: rest =>
      match e, sweeper ts with
      | Scan now, AtSleep => fresh_at mid now (shared ts)
      | _, _ => true
      end
      && match tstep e ts with
         | (TRunning ts', _) => fresh_scans mid rest ts'
         | (TRaised _, _) => true
         end
  end.

End Main.

Arguments TState {World} _ _ _.
Arguments shared {World} _.
Arguments main {World} _.
Arguments sweeper {World} _.
Arguments TRunning {World} _.
Arguments TRaised {World} _.
Arguments shared_of {World} _.
Arguments fresh_at {World} _ _ _ _.

(** The ids the sweeper still means to remove. *)
Definition targets (pc : sweeper_pc) : list Z :=
  match pc with
  | AtSleep => []
  | AtPop l => l
  | AtExpire mid _ rest => mid :: rest
  end.

(** [main] is about to write the file of [mid]. *)
Definition writing (mid : Z) (pc : main_pc) : bool :=
  match pc with
  | AtWrite p => msg_id p =? mid
  | _ => false
  end.

(** What [main] holds about [mid] agrees with the table: it is not
    removing [mid], an announcement for [mid] in hand saw the table as
    it is, and a write for [mid] in hand has its record in the table. *)
Definition main_agrees (mid : Z) (present : bool) (pc : main_pc) : bool :=
  match pc with
  | AtRecv => true
  | AtUnlink m _ => negb (m =? mid)
  | AtAssign p first_time =>
      if msg_id p =? mid then Bool.eqb first_time (negb present) else true
  | AtWrite p => if msg_id p =? mid then present else true
  end.

(** No removal of [mid] is under way in either thread. *)
Definition settled {World} (mid : Z) (ts : tstate World) : bool :=
  negb (existsb (Z.eqb mid) (targets (sweeper ts)))
  && main_agrees mid (dict_mem mid (seen (shared ts))) (main ts).

(** The writes for [mid] that its presence in the table accounts for. *)
Definition written {World} (mid : Z) (ts : tstate World) : nat :=
  if dict_mem mid (seen (shared ts)) && negb (writing mid (main ts)) then 1%nat else 0%nat.

Definition written_when_raised {World} (mid : Z) (st : state World) : nat :=
  if dict_mem mid (seen st) then 1%nat else 0%nat.

Definition written_at {World} (mid : Z) (o : toutcome World) : nat :=
  match o with
  | TRunning ts => written mid ts
  | TRaised st => written_when_raised mid st
  end.

(** The datagram is a deletion for [mid]. *)
Definition is_delete_for (mid : Z) (pkt : bytes) : bool :=
  match parse pkt with
  | Some q => negb (deletion q =? 0) && (msg_id q =? mid)
  | None => false
  end.

Definition no_delete_for (mid : Z) (evs : list tevent) : bool :=
  forallb (fun e => match e with Recv pkt => negb (is_delete_for mid pkt) | _ => true end) evs.

Definition no_scan (evs : list tevent) : bool :=
  forallb (fun e => match e with Scan _ => false | _ => true end) evs.

(** Both threads are between two turns of their loops. *)
Definition at_rest {World} (o : toutcome World) : bool :=
  match o with
  | TRunning ts =>
      match main ts, sweeper ts with
      | AtRecv, AtSleep => true
      | _, _ => false
      end
  | TRaised _ => false
  end.

(** A removal of [mid] is under way: popped by [main] and not yet
    unlinked, popped by the sweeper and not yet unlinked, or listed by
    the sweeper while its record is in the table. *)
Definition removal_due {World} (mid : Z) (ts : tstate World) : bool :=
  match main ts with
  | AtUnlink m (Some _) => m =? mid
  | _ => false
  end
  || match sweeper ts with
     | AtSleep => false
     | AtPop l => existsb (Z.eqb mid) l && dict_mem mid (seen (shared ts))
     | AtExpire m _ rest =>
         (m =? mid) || (existsb (Z.eqb mid) rest && dict_mem mid (seen (shared ts)))
     end.

(** What a quiet stretch of a schedule does about [mid], from [ts]: no
    sink remove, the writes that the table accounts for, the record
    kept if there was one, and no removal under way at the end. *)
Definition accounted {World} (mid : Z) (ts : tstate World)
           (r : toutcome World * list effect) : Prop :=
  removes mid (snd r) = 0%nat
  /\ (writes mid (snd r) + written mid ts)%nat = written_at mid (fst r)
  /\ (dict_mem mid (seen (shared ts)) = true ->
      dict_mem mid (seen (shared_of (fst r))) = true)
  /\ match fst r with
     | TRunning ts' => well_formed (shared ts') /\ settled mid ts' = true
     | TRaised _ => True
     end.

(** An announcement for [mid] is in hand, or a record of [mid] is in
    the table. *)
Definition upserted {World} (mid : Z) (ts : tstate World) : bool :=
  dict_mem mid (seen (shared ts))
  || match main ts with
     | AtAssign p _ => msg_id p =? mid
     | _ => false
     end.

(** A write that [main] has in hand for the id of [q] is the write of
    [q]. *)
Definition writes_first (q : parsed) (pc : main_pc) : Prop :=
  match pc with
  | AtAssign p first_time => msg_id p = msg_id q -> first_time = true -> p = q
  | AtWrite p => msg_id p = msg_id q -> p = q
  | _ => True
  end.

(** Every sink write for the id of [q] among [eff] writes the document
    of [q] to the path of its title. *)
Definition written_from (out_dir : str) (q : parsed) (eff : list effect) : Prop :=
  forall m f c raised,
    In (SinkWrite m f c raised) eff -> m = msg_id q ->
    f = fpath_of out_dir (title_of q) /\ c = sdp_text q ++ [10].

(** The listener of the scenarios as two threads, both between turns. *)
Definition tlisten (evs : list tevent) (ts : tstate files) : toutcome files * list effect :=
  trun files files_write files_unlink (lit "out") 300 evs ts.

Definition tstart : tstate files := TState (State [] []) AtRecv AtSleep.

End Threads.

Import Sender Listener Wire.

(** ** The library models on known values *)

Example path_div_relative :
  path_div (lit "out") (lit "Feed_A.sdp") = lit "out/Feed_A.sdp"
  /\ path_div (lit ".") (lit "Feed_A.sdp") = lit "Feed_A.sdp"
  /\ path_div (lit "out/") (lit "/tmp//./x.sdp") = lit "/tmp/x.sdp".
Proof. vm_compute. repeat split. Qed.

Example splitlines_breaks :
  splitlines [97; 13; 10; 10; 98; 10] = [[97]; []; [98]]
  /\ splitlines [] = []
  /\ splitlines [97; 13; 98; 8232; 99] = [[97]; [98]; [99]].
Proof. vm_compute. repeat split. Qed.

Example utf8_replace_ill_formed :
  utf8_replace [226; 130; 172; 226; 130; 65; 237; 160; 128; 240; 159; 152; 128;
                192; 128; 226; 130]
  = [8364; 65533; 65; 65533; 65533; 65533; 128512; 65533; 65533; 65533].
Proof. vm_compute. reflexivity. Qed.

Example sha1_empty :
  map b2z (sha1_digest []) =
  [218; 57; 163; 238; 94; 107; 75; 13; 50; 85; 191; 239; 149; 96; 24; 144; 175; 216; 7; 9].
Proof. vm_compute. reflexivity. Qed.

Example sha1_abc :
  map b2z (sha1_digest (blit "abc")) =
  [169; 153; 62; 54; 71; 6; 129; 106; 186; 62; 37; 113; 120; 80; 194; 108; 156; 208; 216; 157].
Proof. vm_compute. reflexivity. Qed.

Example sap_sender_ids :
  map (fun p => option_map msg_id (parse (packet p addr_any))) SDPS = [Some 36548; Some 28759].
Proof. vm_compute. reflexivity. Qed.

(** ** Bytes and words *)

Lemma b2z_range (b : byte) : 0 <= b2z b < 256.
Proof.
  unfold b2z. pose proof (Byte.to_N_bounded b). lia.
Qed.

Lemma z2b_b2z (b : byte) : z2b (b2z b) = b.
Proof.
  unfold z2b. pose proof (b2z_range b) as R.
  rewrite Z.mod_small by exact R.
  unfold b2z. rewrite N2Z.id, Byte.of_to_N. reflexivity.
Qed.

Lemma b2z_z2b (z : Z) : b2z (z2b z) = z mod 256.
Proof.
  unfold z2b, b2z.
  pose proof (Z.mod_pos_bound z 256 ltac:(lia)) as R.
  destruct (Byte.of_N (Z.to_N (z mod 256))) as [b|] eqn:E.
  - apply Byte.to_of_N in E. rewrite E. lia.
  - apply Byte.of_N_None_iff in E. lia.
Qed.

Lemma lor_shiftl_8 (hi lo : Z) :
  0 <= hi -> 0 <= lo < 256 -> Z.lor (Z.shiftl hi 8) lo = hi * 256 + lo.
Proof.
  intros Hhi Hlo.
  rewrite Z.shiftl_mul_pow2 by lia. change (2 ^ 8) with 256.
  rewrite <- Z.lxor_lor, <- Z.add_nocarry_lxor; try reflexivity.
  - apply Z.bits_inj'. intros n Hn. rewrite Z.land_spec, Z.bits_0.
    destruct (Z.lt_ge_cases n 8) as [L|G].
    + change 256 with (2 ^ 8). rewrite Z.mul_pow2_bits_low by lia. reflexivity.
    + assert (Z.testbit lo n = false) as ->; [|apply andb_false_r].
      destruct (Z.eq_dec lo 0) as [->|NZ]; [apply Z.bits_0|].
      apply Z.bits_above_log2; [lia|].
      assert (Z.log2 lo < 8); [|lia].
      apply Z.log2_lt_pow2; lia.
  - apply Z.bits_inj'. intros n Hn. rewrite Z.land_spec, Z.bits_0.
    destruct (Z.lt_ge_cases n 8) as [L|G].
    + change 256 with (2 ^ 8). rewrite Z.mul_pow2_bits_low by lia. reflexivity.
    + assert (Z.testbit lo n = false) as ->; [|apply andb_false_r].
      destruct (Z.eq_dec lo 0) as [->|NZ]; [apply Z.bits_0|].
      apply Z.bits_above_log2; [lia|].
      assert (Z.log2 lo < 8); [|lia].
      apply Z.log2_lt_pow2; lia.
Qed.

(** ** The [dict] operations *)

Section DictFacts.

Context {V : Type}.
Implicit Types (d : dict V) (k : Z) (v : V).

Lemma dict_get_set_same k v d : dict_get k (dict_set k v d) = Some v.
Proof.
  induction d as [|[k' v'] r IH]; simpl.
  - rewrite Z.eqb_refl. reflexivity.
  - destruct (k' =? k) eqn:E; simpl.
    + rewrite Z.eqb_refl. reflexivity.
    + rewrite E. exact IH.
Qed.

Lemma dict_get_set_other k k' v d :
  k' <> k -> dict_get k' (dict_set k v d) = dict_get k' d.
Proof.
  intros N. induction d as [|[k0 v0] r IH]; simpl.
  - destruct (k =? k') eqn:E; [apply Z.eqb_eq in E; congruence|reflexivity].
  - destruct (k0 =? k) eqn:E; simpl.
    + apply Z.eqb_eq in E. subst k0.
      destruct (k =? k') eqn:E'; [apply Z.eqb_eq in E'; congruence|reflexivity].
    + destruct (k0 =? k'); [reflexivity|exact IH].
Qed.

Lemma dict_get_del_same k d : dict_get k (dict_del k d) = None.
Proof.
  induction d as [|[k' v'] r IH]; simpl; [reflexivity|].
  destruct (k' =? k) eqn:E; simpl; [exact IH|].
  rewrite E. exact IH.
Qed.

Lemma dict_get_del_other k k' d :
  k' <> k -> dict_get k' (dict_del k d) = dict_get k' d.
Proof.
  intros N. induction d as [|[k0 v0] r IH]; simpl; [reflexivity|].
  destruct (k0 =? k) eqn:E; simpl.
  - apply Z.eqb_eq in E. subst k0.
    destruct (k =? k') eqn:E'; [apply Z.eqb_eq in E'; congruence|exact IH].
  - destruct (k0 =? k'); [reflexivity|exact IH].
Qed.

Lemma dict_del_absent k d : dict_get k d = None -> dict_del k d = d.
Proof.
  induction d as [|[k' v'] r IH]; simpl; [reflexivity|].
  destruct (k' =? k) eqn:E; simpl; [discriminate|].
  intros H. rewrite (IH H). reflexivity.
Qed.

Lemma dict_get_in k v d : dict_get k d = Some v -> In (k, v) d.
Proof.
  induction d as [|[k' v'] r IH]; simpl; [discriminate|].
  destruct (k' =? k) eqn:E.
  - apply Z.eqb_eq in E. intros [= ->]. left. congruence.
  - intros H. right. exact (IH H).
Qed.

Lemma dict_in_get k v d : NoDup (map fst d) -> In (k, v) d -> dict_get k d = Some v.
Proof.
  induction d as [|[k' v'] r IH]; simpl; [tauto|].
  intros ND [H|H].
  - injection H as -> ->. rewrite Z.eqb_refl. reflexivity.
  - inversion ND as [|? ? NI ND']. subst.
    destruct (k' =? k) eqn:E.
    + apply Z.eqb_eq in E. subst k'. exfalso. apply NI.
      change k with (fst (k, v)). apply in_map. exact H.
    + exact (IH ND' H).
Qed.

Lemma dict_del_keys k d : incl (map fst (dict_del k d)) (map fst d).
Proof.
  unfold dict_del. intros x H. apply in_map_iff in H as [kv [<- H]].
  apply filter_In in H as [H _]. apply in_map. exact H.
Qed.

Lemma dict_del_nodup k d : NoDup (map fst d) -> NoDup (map fst (dict_del k d)).
Proof.
  induction d as [|[k' v'] r IH]; simpl; [trivial|].
  intros ND. inversion ND as [|? ? NI ND']. subst.
  destruct (k' =? k); simpl; [exact (IH ND')|].
  constructor; [|exact (IH ND')].
  intros H. apply NI. exact (dict_del_keys k r _ H).
Qed.

Lemma dict_set_keys k v d x : In x (map fst (dict_set k v d)) -> x = k \/ In x (map fst d).
Proof.
  induction d as [|[k' v'] r IH]; simpl.
  - intros [H|[]]. left. congruence.
  - destruct (k' =? k) eqn:E; simpl.
    + intros [H|H]; [left; congruence|right; right; exact H].
    + intros [H|H]; [right; left; exact H|].
      destruct (IH H); [left|right; right]; assumption.
Qed.

Lemma dict_set_nodup k v d : NoDup (map fst d) -> NoDup (map fst (dict_set k v d)).
Proof.
  induction d as [|[k' v'] r IH]; simpl.
  - intros _. constructor; [simpl; tauto|constructor].
  - intros ND. inversion ND as [|? ? NI ND']. subst.
    destruct (k' =? k) eqn:E; simpl.
    + apply Z.eqb_eq in E. subst k'. constructor; assumption.
    + constructor; [|exact (IH ND')].
      intros H. apply dict_set_keys in H as [H|H]; [|exact (NI H)].
      apply Z.eqb_neq in E. congruence.
Qed.

End DictFacts.

(** ** Reading a datagram *)

Lemma parse_short (pkt : bytes) : len pkt < 8 -> parse pkt = None.
Proof.
  intros H. unfold parse. destruct (Z.ltb_spec (len pkt) 8); [reflexivity|lia].
Qed.

Lemma parse_cons8 (c0 c1 c2 c3 c4 c5 c6 c7 : byte) (rest : bytes) :
  let pkt := c0 :: c1 :: c2 :: c3 :: c4 :: c5 :: c6 :: c7 :: rest in
  parse pkt =
  Some (Parsed (b2z c0) (b2z c1) (Z.lor (Z.shiftl (b2z c2) 8) (b2z c3))
          (Z.land (Z.shiftr (b2z c0) 2) 1) (4 + 4 + b2z c1 * 4)
          (slice_from (4 + 4 + b2z c1 * 4) pkt)
          (strip (decode_utf8_replace (slice_from (4 + 4 + b2z c1 * 4) pkt)))).
Proof.
  intros pkt. unfold parse.
  destruct (Z.ltb_spec (len pkt) 8) as [L|_].
  - unfold pkt, len in L. simpl List.length in L. lia.
  - reflexivity.
Qed.

Lemma long_cons8 (pkt : bytes) :
  8 <= len pkt ->
  exists c0 c1 c2 c3 c4 c5 c6 c7 rest,
    pkt = c0 :: c1 :: c2 :: c3 :: c4 :: c5 :: c6 :: c7 :: rest.
Proof.
  unfold len. intros H.
  do 8 (destruct pkt as [|? pkt]; [simpl in H; lia|]).
  repeat eexists.
Qed.

Lemma parse_long (pkt : bytes) :
  8 <= len pkt ->
  exists q, parse pkt = Some q
            /\ auth_len q = b2z (nth 1 pkt x00)
            /\ off q = 8 + auth_len q * 4
            /\ payload q = slice_from (off q) pkt
            /\ sdp_text q = strip (decode_utf8_replace (payload q)).
Proof.
  intros H. destruct (long_cons8 pkt H) as (c0 & c1 & c2 & c3 & c4 & c5 & c6 & c7 & rest & ->).
  eexists. split; [apply parse_cons8|]. simpl. repeat split.
Qed.

Lemma slice_from_beyond {A} (i : Z) (l : list A) : len l <= i -> slice_from i l = [].
Proof.
  unfold len, slice_from. intros H. apply skipn_all2. lia.
Qed.

Lemma len_slice_from {A} (i : Z) (l : list A) :
  0 <= i <= len l -> len (slice_from i l) = len l - i.
Proof.
  unfold len, slice_from. intros H. rewrite length_skipn. lia.
Qed.

Lemma int_from_two_bytes (b : bytes) :
  0 <= int_from_bytes_big (slice_to 2 b) < 65536.
Proof.
  unfold int_from_bytes_big, slice_to. change (Z.to_nat 2) with 2%nat.
  destruct b as [|c [|d r]]; cbn [firstn fold_left].
  - lia.
  - change (Z.shiftl 0 8) with 0. rewrite Z.lor_0_l. pose proof (b2z_range c). lia.
  - change (Z.shiftl 0 8) with 0. rewrite Z.lor_0_l.
    pose proof (b2z_range c). pose proof (b2z_range d).
    rewrite lor_shiftl_8 by lia. lia.
Qed.

Lemma unpack_pack_H (m : Z) :
  0 <= m < 65536 ->
  Z.lor (Z.shiftl (b2z (z2b (Z.shiftr m 8))) 8) (b2z (z2b (Z.land m 255))) = m.
Proof.
  intros H. rewrite !b2z_z2b.
  change 255 with (Z.ones 8). rewrite Z.land_ones by lia.
  rewrite Z.shiftr_div_pow2 by lia. change (2 ^ 8) with 256.
  rewrite Z.mod_mod by lia.
  assert (0 <= m / 256 < 256) as R by (split; [apply Z.div_pos; lia|apply Z.div_lt_upper_bound; lia]).
  rewrite (Z.mod_small (m / 256)) by exact R.
  pose proof (Z.mod_pos_bound m 256 ltac:(lia)).
  rewrite lor_shiftl_8 by lia.
  pose proof (Z.div_mod m 256 ltac:(lia)). lia.
Qed.

(** What either listener reads from a packet of either announcer. *)
Lemma parse_packet (p : bytes) (a : ipv4) :
  parse (packet p a) =
  Some (Parsed 32 0 (int_from_bytes_big (slice_to 2 (sha1_digest p))) 0 8 p
          (strip (decode_utf8_replace p))).
Proof.
  unfold packet, sap_header, pack_BBH, inet_aton.
  cbn [app]. rewrite parse_cons8.
  rewrite unpack_pack_H by apply int_from_two_bytes.
  reflexivity.
Qed.

Lemma packet_not_delete (p : bytes) (a : ipv4) : is_delete_packet (packet p a) = false.
Proof.
  unfold is_delete_packet. rewrite parse_packet. reflexivity.
Qed.

(** ** The header codec *)

(** C2, as the code has it: a datagram of at least 8 bytes is never
    rejected.  The payload is the datagram from offset
    [8 + auth_len * 4] on; when [auth_len * 4] reaches or exceeds the
    bytes left after the 8-byte header the slice is empty, and so is the
    text; otherwise the payload is all that follows the authentication
    words. *)
Theorem parse_never_truncated (pkt : bytes) :
  8 <= len pkt ->
  exists q,
    parse pkt = Some q
    /\ auth_len q = b2z (nth 1 pkt x00)
    /\ payload q = slice_from (8 + auth_len q * 4) pkt
    /\ (auth_len q * 4 >= len pkt - 8 -> payload q = [] /\ sdp_text q = [])
    /\ (auth_len q * 4 <= len pkt - 8 -> len (payload q) = len pkt - 8 - auth_len q * 4).
Proof.
  intros H. destruct (parse_long pkt H) as (q & P & A & O & Y & T).
  pose proof (b2z_range (nth 1 pkt x00)) as R.
  exists q. rewrite <- O. split; [exact P|]. split; [exact A|]. split; [exact Y|]. split.
  - intros G. assert (payload q = []) as E by (rewrite Y; apply slice_from_beyond; lia).
    split; [exact E|]. rewrite T, E. reflexivity.
  - intros L. rewrite Y, len_slice_from; lia.
Qed.

Lemma parse_never_truncated_witness :
  let pkt := [x20; x01; x00; x07; x00; x00; x00; x00; x41] in
  8 <= len pkt
  /\ exists q,
      parse pkt = Some q
      /\ auth_len q = b2z (nth 1 pkt x00)
      /\ payload q = slice_from (8 + auth_len q * 4) pkt
      /\ (auth_len q * 4 >= len pkt - 8 -> payload q = [] /\ sdp_text q = [])
      /\ (auth_len q * 4 <= len pkt - 8 -> len (payload q) = len pkt - 8 - auth_len q * 4).
Proof.
  intros pkt.
  assert (8 <= len pkt) as H by (vm_compute; discriminate).
  split; [exact H|].
  apply (parse_never_truncated pkt H).
Defined.

(** C2 as stated fails: one authentication word is announced, one byte
    follows the header, and the datagram is read as an announcement of
    id 7 with an empty document. *)
Lemma truncated_auth_data_accepted :
  let pkt := [x20; x01; x00; x07; x00; x00; x00; x00; x41] in
  8 <= len pkt
  /\ b2z (nth 1 pkt x00) * 4 > len pkt - 8
  /\ parse pkt = Some (Parsed 32 1 7 0 12 [] [])
  /\ parse pkt <> None.
Proof.
  cbv zeta. repeat split; try (vm_compute; congruence).
Qed.

(** C3, as the code has it: what a listener reads from the packet an
    announcer builds for document [p] and address [a].  The type is
    Announce, there is no authentication data, the id is the first two
    bytes of the SHA-1 digest of [p], the address sits in bytes 4 to 7,
    which the listener skips, the payload is [p], and the document is the
    stripped lossy decoding of [p]. *)
Theorem packet_round_trip (p : bytes) (a : ipv4) :
  exists q,
    parse (packet p a) = Some q
    /\ deletion q = 0
    /\ auth_len q = 0
    /\ msg_id q = int_from_bytes_big (slice_to 2 (sha1_digest p))
    /\ 0 <= msg_id q < 65536
    /\ slice_to 4 (slice_from 4 (packet p a)) = inet_aton a
    /\ payload q = p
    /\ sdp_text q = strip (decode_utf8_replace p).
Proof.
  eexists. split; [apply parse_packet|]. cbn [deletion auth_len msg_id payload sdp_text].
  repeat split; try apply int_from_two_bytes.
Qed.

(** C3 as stated fails: the packet built for the empty payload is not
    read back with type Delete, nor with id 0; and the document read
    from the first packet of [sap_sender.py] has lost the final newline
    of its payload. *)
Lemma round_trip_loses_type_and_id :
  ~ decodes_to (packet [] addr_any) [] 0 addr_any 1
  /\ ~ decodes_to (packet [] addr_any) [] 0 addr_any 0
  /\ decodes_to (packet [] addr_any) [] 55865 addr_any 0
  /\ option_map sdp_text (parse (packet (nth 0 SDPS []) addr_any))
     <> Some (decode_utf8_replace (nth 0 SDPS [])).
Proof.
  repeat split.
  - intros (q & P & _ & _ & _ & D). rewrite parse_packet in P. injection P as <-.
    discriminate D.
  - intros (q & P & _ & M & _). rewrite parse_packet in P. injection P as <-.
    vm_compute in M. discriminate M.
  - eexists. split; [apply parse_packet|]. vm_compute. repeat split.
  - vm_compute. discriminate.
Qed.

(** ** Stopping an announcer *)

Lemma in_firstn {A} (x : A) (n : nat) (l : list A) : In x (firstn n l) -> In x l.
Proof.
  revert l. induction n as [|n IH]; intros [|y l]; simpl; try tauto.
  intros [H|H]; [left; exact H|right; exact (IH _ H)].
Qed.

Lemma in_times {A} (x : A) (n : nat) (body : list A) : In x (times n body) -> In x body.
Proof.
  induction n as [|n IH]; simpl; [tauto|].
  intros H. apply in_app_or in H as [H|H]; [exact H|exact (IH H)].
Qed.

Lemma in_interrupted {A} (x : A) (n : nat) (startup body : list A) :
  In x (interrupted_after n startup body) -> In x startup \/ In x body.
Proof.
  unfold interrupted_after. intros H. apply in_firstn in H.
  apply in_app_or in H as [H|H]; [left; exact H|right; exact (in_times _ _ _ H)].
Qed.

Lemma in_sent (pkt : bytes) (tr : list action) :
  In pkt (sent tr) <-> exists g port, In (SendTo pkt g port) tr.
Proof.
  unfold sent. rewrite in_flat_map. split.
  - intros (a & I & H). destruct a; simpl in H; try tauto.
    destruct H as [<-|[]]. eauto.
  - intros (g & port & I). exists (SendTo pkt g port). simpl. auto.
Qed.

Lemma sent_app (t1 t2 : list action) : sent (t1 ++ t2) = sent t1 ++ sent t2.
Proof.
  unfold sent. apply flat_map_app.
Qed.

Lemma sent_shutdown (o : terminate_outcome) : sent (shutdown o) = [].
Proof.
  destruct o; reflexivity.
Qed.

Lemma no_deletes (tr : list action) :
  (forall pkt, In pkt (sent tr) -> is_delete_packet pkt = false) -> deletes_sent tr = 0%nat.
Proof.
  unfold deletes_sent. intros H.
  induction (sent tr) as [|pkt l IH]; simpl; [reflexivity|].
  rewrite (H pkt) by (left; reflexivity). apply IH. intros q I. apply H. right. exact I.
Qed.

Lemma send_sap_loop_sends (sdp : bytes) (src : ipv4) (n : nat) (pkt : bytes) :
  In pkt (sent (send_sap_loop sdp src n)) -> pkt = packet sdp src.
Proof.
  intros H. apply in_sent in H as (g & port & H).
  unfold send_sap_loop in H. apply in_interrupted in H as [H|H].
  - apply in_times in H. simpl in H. destruct H as [H|[H|[]]]; congruence.
  - simpl in H. destruct H as [H|[H|[]]]; congruence.
Qed.

Lemma sap_sender_sends (n : nat) (pkt : bytes) :
  In pkt (sent (sap_sender_run n)) -> exists sdp, In sdp SDPS /\ pkt = packet sdp addr_any.
Proof.
  intros H. apply in_sent in H as (g & port & H).
  unfold sap_sender_run in H.
  assert (forall d, In (SendTo pkt g port)
                       (send_all (map (fun sdp => packet sdp addr_any) SDPS) ++ [Sleep d]) ->
                    exists sdp, In sdp SDPS /\ pkt = packet sdp addr_any) as K.
  { intros d I. apply in_app_or in I as [I|[I|[]]]; [|discriminate I].
    unfold send_all in I. apply in_map_iff in I as (x & E & I).
    apply in_map_iff in I as (sdp & <- & I). exists sdp. split; [exact I|congruence]. }
  apply in_interrupted in H as [H|H].
  - apply in_times in H. exact (K _ H).
  - exact (K _ H).
Qed.

(** C6, as the code has it: an announcer never sends a Delete.  Stopped
    by a signal after any number of actions, [sender.py] has sent only
    its one Announce packet, its [shutdown] handler (run by the signal
    and again by [finally]) sends nothing, and [sap_sender.py], which has
    no handler, has sent only Announce packets as well. *)
Theorem no_delete_on_shutdown (sdp : bytes) (src : ipv4) (n : nat)
        (o1 o2 : terminate_outcome) :
  (forall pkt, In pkt (sent (sender_run sdp src n o1 o2)) -> pkt = packet sdp src)
  /\ sent (shutdown o1 ++ shutdown o2) = []
  /\ deletes_sent (sender_run sdp src n o1 o2) = 0%nat
  /\ deletes_sent (sap_sender_run n) = 0%nat.
Proof.
  assert (forall pkt, In pkt (sent (sender_run sdp src n o1 o2)) -> pkt = packet sdp src) as K.
  { intros pkt H. unfold sender_run in H.
    rewrite !sent_app, !sent_shutdown, !app_nil_r in H.
    exact (send_sap_loop_sends _ _ _ _ H). }
  repeat split.
  - exact K.
  - rewrite sent_app, !sent_shutdown. reflexivity.
  - apply no_deletes. intros pkt H. rewrite (K pkt H). apply packet_not_delete.
  - apply no_deletes. intros pkt H. apply sap_sender_sends in H as (d & _ & ->).
    apply packet_not_delete.
Qed.

(** C6 as stated fails: [sender.py], interrupted in its ninth action and
    shut down cleanly, has sent five packets and none of them is a
    Delete. *)
Lemma shutdown_sends_no_delete :
  let tr := sender_run (nth 0 SDPS []) addr_any 9 Terminated Terminated in
  List.length (sent tr) = 5%nat
  /\ deletes_sent tr <> 1%nat
  /\ skipn 9 tr = [PrintShutdown; ProcTerminate; ProcWait 3; Exit 0;
                   PrintShutdown; ProcTerminate; ProcWait 3; Exit 0].
Proof.
  cbv zeta. repeat split; vm_compute; congruence.
Qed.

(** ** The session table of [sap_discovery.py] *)

Import Discovery.

Lemma writes_app (mid : Z) (e1 e2 : list effect) :
  writes mid (e1 ++ e2) = (writes mid e1 + writes mid e2)%nat.
Proof.
  unfold writes. rewrite filter_app, length_app. reflexivity.
Qed.

Lemma removes_app (mid : Z) (e1 e2 : list effect) :
  removes mid (e1 ++ e2) = (removes mid e1 + removes mid e2)%nat.
Proof.
  unfold removes. rewrite filter_app, length_app. reflexivity.
Qed.

Lemma removes_cons (mid : Z) (e : effect) (l : list effect) :
  removes mid (e :: l) = ((if is_remove mid e then 1 else 0) + removes mid l)%nat.
Proof.
  unfold removes. cbn [filter]. destruct (is_remove mid e); reflexivity.
Qed.

Lemma writes_cons (mid : Z) (e : effect) (l : list effect) :
  writes mid (e :: l) = ((if is_write mid e then 1 else 0) + writes mid l)%nat.
Proof.
  unfold writes. cbn [filter]. destruct (is_write mid e); reflexivity.
Qed.

Lemma dict_mem_get {V} (k : Z) (d : dict V) :
  dict_mem k d = true <-> exists v, dict_get k d = Some v.
Proof.
  unfold dict_mem. destruct (dict_get k d) as [v|].
  - split; [eauto|reflexivity].
  - split; [discriminate|intros [v H]; discriminate].
Qed.

Section DiscoveryFacts.

Context {World : Type}.
Variable fs_write : str -> str -> World -> World * bool.
Variable fs_unlink : str -> World -> World * bool.
Variable out_dir : str.
Variable expire_sec : Z.

Local Abbreviation on_delete := (Discovery.on_delete World fs_unlink).
Local Abbreviation on_announce := (Discovery.on_announce World fs_write out_dir).
Local Abbreviation on_packet := (Discovery.on_packet World fs_write fs_unlink out_dir).
Local Abbreviation sweep := (Discovery.sweep World fs_unlink).
Local Abbreviation sweeper_tick := (Discovery.sweeper_tick World fs_unlink expire_sec).
Local Abbreviation delete_all := (Discovery.delete_all World fs_unlink).
Local Abbreviation step := (Discovery.step World fs_write fs_unlink out_dir expire_sec).
Local Abbreviation run := (Discovery.run World fs_write fs_unlink out_dir expire_sec).
Local Abbreviation expired := (Discovery.expired expire_sec).
Local Abbreviation to_delete := (Discovery.to_delete expire_sec).
Local Abbreviation fpath_of := (Discovery.fpath_of out_dir).

Implicit Types (st : state World) (q : parsed) (i : info) (mid now : Z).

Lemma on_delete_absent mid st :
  dict_get mid (seen st) = None ->
  on_delete mid st = (st, [Log (lit "Deleted " ++ str_of_int mid)]).
Proof.
  intros H. unfold Discovery.on_delete, dict_pop. rewrite H, (dict_del_absent _ _ H).
  destruct st. reflexivity.
Qed.

Lemma on_delete_present mid st i :
  dict_get mid (seen st) = Some i ->
  on_delete mid st =
  (State (dict_del mid (seen st)) (fst (fs_unlink (path i) (world st))),
   [SinkRemove mid (path i) (snd (fs_unlink (path i) (world st)));
    Log (removed_line (lit "Deleted") i mid)]).
Proof.
  intros H. unfold Discovery.on_delete, dict_pop. rewrite H.
  destruct (fs_unlink (path i) (world st)). reflexivity.
Qed.

Lemma on_delete_gone mid st : dict_get mid (seen (fst (on_delete mid st))) = None.
Proof.
  destruct (dict_get mid (seen st)) as [i|] eqn:E.
  - rewrite (on_delete_present _ _ _ E). apply dict_get_del_same.
  - rewrite (on_delete_absent _ _ E). exact E.
Qed.

Lemma on_packet_delete pkt now st q :
  parse pkt = Some q -> deletion q <> 0 ->
  on_packet pkt now st =
  (Running (fst (on_delete (msg_id q) st)), snd (on_delete (msg_id q) st)).
Proof.
  intros P D. unfold Discovery.on_packet. rewrite P.
  destruct (Z.eqb_spec (deletion q) 0) as [E|_]; [contradiction|].
  simpl. destruct (on_delete (msg_id q) st). reflexivity.
Qed.

Lemma on_packet_announce pkt now st q :
  parse pkt = Some q -> deletion q = 0 ->
  on_packet pkt now st = on_announce q now st.
Proof.
  intros P D. unfold Discovery.on_packet. rewrite P, D. reflexivity.
Qed.

Lemma on_announce_first q now st :
  dict_get (msg_id q) (seen st) = None ->
  let title := title_of q in
  let fpath := fpath_of title in
  let content := sdp_text q ++ [10] in
  let st' := State (dict_set (msg_id q) (Info title fpath now (sdp_text q)) (seen st))
                   (fst (fs_write fpath content (world st))) in
  on_announce q now st =
  if snd (fs_write fpath content (world st))
  then (Raised st', [SinkWrite (msg_id q) fpath content true])
  else (Running st', [SinkWrite (msg_id q) fpath content false; Log (new_line title fpath)]).
Proof.
  intros H. cbv zeta. unfold Discovery.on_announce, dict_mem. rewrite H. cbn [negb].
  destruct (fs_write _ _ _) as [w [|]]; reflexivity.
Qed.

Lemma on_announce_again q now st i :
  dict_get (msg_id q) (seen st) = Some i ->
  on_announce q now st =
  (Running (State (dict_set (msg_id q)
                     (Info (title_of q) (fpath_of (title_of q)) now (sdp_text q)) (seen st))
                  (world st)), []).
Proof.
  intros H. unfold Discovery.on_announce, dict_mem. rewrite H. reflexivity.
Qed.

(** After an announcement the record holds what the packet said. *)
Lemma on_announce_record q now st :
  dict_get (msg_id q) (seen (state_of (fst (on_announce q now st)))) =
  Some (Info (title_of q) (fpath_of (title_of q)) now (sdp_text q)).
Proof.
  destruct (dict_get (msg_id q) (seen st)) as [i|] eqn:E.
  - rewrite (on_announce_again _ _ _ _ E). apply dict_get_set_same.
  - rewrite (on_announce_first _ _ _ E).
    destruct (snd (fs_write _ _ _)); apply dict_get_set_same.
Qed.

Lemma on_announce_other q now st mid :
  mid <> msg_id q ->
  dict_get mid (seen (state_of (fst (on_announce q now st)))) = dict_get mid (seen st).
Proof.
  intros N. destruct (dict_get (msg_id q) (seen st)) as [i|] eqn:E.
  - rewrite (on_announce_again _ _ _ _ E). apply dict_get_set_other. exact N.
  - rewrite (on_announce_first _ _ _ E).
    destruct (snd (fs_write _ _ _)); apply dict_get_set_other; exact N.
Qed.

Lemma on_announce_well_formed q now st :
  well_formed st -> well_formed (state_of (fst (on_announce q now st))).
Proof.
  unfold well_formed. intros W.
  destruct (dict_get (msg_id q) (seen st)) as [i|] eqn:E.
  - rewrite (on_announce_again _ _ _ _ E). apply dict_set_nodup. exact W.
  - rewrite (on_announce_first _ _ _ E).
    destruct (snd (fs_write _ _ _)); apply dict_set_nodup; exact W.
Qed.

Lemma on_delete_other mid k st :
  k <> mid -> dict_get k (seen (fst (on_delete mid st))) = dict_get k (seen st).
Proof.
  intros N. destruct (dict_get mid (seen st)) as [i|] eqn:E.
  - rewrite (on_delete_present _ _ _ E). apply dict_get_del_other. exact N.
  - rewrite (on_delete_absent _ _ E). reflexivity.
Qed.

Lemma on_delete_well_formed mid st : well_formed st -> well_formed (fst (on_delete mid st)).
Proof.
  unfold well_formed. intros W. destruct (dict_get mid (seen st)) as [i|] eqn:E.
  - rewrite (on_delete_present _ _ _ E). apply dict_del_nodup. exact W.
  - rewrite (on_delete_absent _ _ E). exact W.
Qed.

(** *** The sweeper *)

Lemma sweep_cons_present mid rest st i :
  dict_get mid (seen st) = Some i ->
  sweep (mid :: rest) st =
  (fst (sweep rest (fst (on_delete mid st))),
   SinkRemove mid (path i) (snd (fs_unlink (path i) (world st)))
     :: Log (removed_line (lit "Expired") i mid)
     :: snd (sweep rest (fst (on_delete mid st)))).
Proof.
  intros H. rewrite (on_delete_present _ _ _ H).
  cbn [Discovery.sweep dict_pop fst]. rewrite H.
  destruct (fs_unlink (path i) (world st)) as [w r]. cbn [fst snd].
  destruct (Discovery.sweep _ _ _ _) as [st' eff]. reflexivity.
Qed.

Lemma sweep_cons_absent mid rest st :
  dict_get mid (seen st) = None -> sweep (mid :: rest) st = sweep rest st.
Proof.
  intros H. cbn [Discovery.sweep dict_pop]. rewrite H, (dict_del_absent _ _ H).
  destruct st. reflexivity.
Qed.

Lemma sweep_get mids st k :
  dict_get k (seen (fst (sweep mids st))) =
  if existsb (Z.eqb k) mids then None else dict_get k (seen st).
Proof.
  revert st. induction mids as [|mid rest IH]; intros st; [reflexivity|].
  cbn [existsb].
  assert (dict_get k (seen (fst (sweep (mid :: rest) st))) =
          dict_get k (seen (fst (sweep rest (fst (on_delete mid st)))))) as ->.
  { destruct (dict_get mid (seen st)) as [i|] eqn:E.
    - rewrite (sweep_cons_present _ _ _ _ E). reflexivity.
    - rewrite (sweep_cons_absent _ _ _ E), (on_delete_absent _ _ E). reflexivity. }
  rewrite IH. destruct (existsb (Z.eqb k) rest); [rewrite orb_true_r; reflexivity|].
  rewrite orb_false_r. destruct (Z.eqb_spec k mid) as [->|N].
  - apply on_delete_gone.
  - apply on_delete_other. exact N.
Qed.

Lemma existsb_absent (k : Z) (l : list Z) : ~ In k l -> existsb (Z.eqb k) l = false.
Proof.
  intros N. destruct (existsb (Z.eqb k) l) eqn:E; [|reflexivity].
  apply existsb_exists in E as (x & I & E). apply Z.eqb_eq in E. subst x. contradiction.
Qed.

Lemma sweep_removes mid mids st :
  NoDup mids ->
  removes mid (snd (sweep mids st)) =
  if existsb (Z.eqb mid) mids && dict_mem mid (seen st) then 1%nat else 0%nat.
Proof.
  revert st. induction mids as [|k rest IH]; intros st ND; [reflexivity|].
  inversion ND as [|? ? NI ND']. subst. cbn [existsb].
  destruct (dict_get k (seen st)) as [i|] eqn:E.
  - rewrite (sweep_cons_present _ _ _ _ E). cbn [snd].
    rewrite !removes_cons. cbn [is_remove].
    rewrite (IH _ ND'). destruct (Z.eqb_spec mid k) as [->|N].
    + rewrite Z.eqb_refl, (existsb_absent _ _ NI). cbn [andb orb].
      unfold dict_mem. rewrite E. reflexivity.
    + destruct (Z.eqb_spec k mid) as [->|_]; [contradiction|].
      cbn [orb]. unfold dict_mem. rewrite (on_delete_other _ _ _ N). reflexivity.
  - rewrite (sweep_cons_absent _ _ _ E), (IH _ ND').
    destruct (Z.eqb_spec mid k) as [->|N]; cbn [orb]; [|reflexivity].
    unfold dict_mem. rewrite E, !andb_false_r. reflexivity.
Qed.

Lemma to_delete_keys now (d : dict info) k : In k (to_delete now d) -> In k (map fst d).
Proof.
  unfold Discovery.to_delete. intros H. apply in_map_iff in H as (kv & <- & H).
  apply filter_In in H as [H _]. apply in_map. exact H.
Qed.

Lemma to_delete_cons now k v (r : dict info) :
  to_delete now ((k, v) :: r) =
  if expired now v then k :: to_delete now r else to_delete now r.
Proof.
  unfold Discovery.to_delete. cbn [filter snd].
  destruct (Discovery.expired expire_sec now v); reflexivity.
Qed.

Lemma to_delete_nodup now (d : dict info) : NoDup (map fst d) -> NoDup (to_delete now d).
Proof.
  induction d as [|[k v] r IH]; intros ND; [constructor|].
  inversion ND as [|? ? NI ND']. subst.
  rewrite to_delete_cons.
  destruct (expired now v); [|exact (IH ND')].
  constructor; [|exact (IH ND')].
  intros H. apply NI. exact (to_delete_keys _ _ _ H).
Qed.

Lemma to_delete_mem now (d : dict info) mid :
  NoDup (map fst d) ->
  existsb (Z.eqb mid) (to_delete now d) =
  match dict_get mid d with
  | Some i => expired now i
  | None => false
  end.
Proof.
  induction d as [|[k v] r IH]; intros ND; [reflexivity|].
  inversion ND as [|? ? NI ND']. subst.
  rewrite to_delete_cons. cbn [dict_get].
  destruct (Z.eqb_spec k mid) as [->|N].
  - assert (existsb (Z.eqb mid) (to_delete now r) = false) as A.
    { apply existsb_absent. intros H. apply NI. exact (to_delete_keys _ _ _ H). }
    destruct (expired now v); cbn [existsb]; rewrite A; [|reflexivity].
    rewrite Z.eqb_refl. reflexivity.
  - destruct (expired now v); cbn [existsb]; [|exact (IH ND')].
    destruct (Z.eqb_spec mid k) as [->|_]; [contradiction|]. exact (IH ND').
Qed.

Lemma sweep_well_formed mids st : well_formed st -> well_formed (fst (sweep mids st)).
Proof.
  revert st. induction mids as [|k rest IH]; intros st W; [exact W|].
  destruct (dict_get k (seen st)) as [i|] eqn:E.
  - rewrite (sweep_cons_present _ _ _ _ E). apply IH, on_delete_well_formed, W.
  - rewrite (sweep_cons_absent _ _ _ E). apply IH, W.
Qed.

(** The sweep removes as [Remove] does, id by id: same table, same
    world, same sink calls; only the printed lines differ. *)
Lemma sweep_delete_all mids st :
  fst (sweep mids st) = fst (delete_all mids st)
  /\ sink_calls (snd (sweep mids st)) = sink_calls (snd (delete_all mids st)).
Proof.
  revert st. induction mids as [|k rest IH]; intros st; [split; reflexivity|].
  cbn [Discovery.delete_all].
  destruct (IH (fst (on_delete k st))) as [IH1 IH2].
  destruct (dict_get k (seen st)) as [i|] eqn:E.
  - rewrite (sweep_cons_present _ _ _ _ E).
    rewrite (on_delete_present _ _ _ E) in *.
    cbn [fst snd] in *.
    destruct (Discovery.delete_all _ _ rest _) as [st2 eff2]. cbn [fst snd] in *.
    split; [exact IH1|].
    unfold sink_calls in *. cbn [filter is_sink_call app]. rewrite IH2. reflexivity.
  - rewrite (sweep_cons_absent _ _ _ E).
    rewrite (on_delete_absent _ _ E) in *. cbn [fst snd] in *.
    destruct (Discovery.delete_all _ _ rest _) as [st2 eff2]. cbn [fst snd] in *.
    split; [exact IH1|]. exact IH2.
Qed.

Lemma sweeper_tick_get now st mid :
  well_formed st ->
  dict_get mid (seen (fst (sweeper_tick now st))) =
  match dict_get mid (seen st) with
  | Some i => if now - last_seen i >? expire_sec then None else Some i
  | None => None
  end.
Proof.
  intros W. unfold Discovery.sweeper_tick. rewrite sweep_get, (to_delete_mem _ _ _ W).
  destruct (dict_get mid (seen st)) as [i|]; reflexivity.
Qed.

Lemma sweeper_tick_removes now st mid :
  well_formed st ->
  removes mid (snd (sweeper_tick now st)) =
  match dict_get mid (seen st) with
  | Some i => if now - last_seen i >? expire_sec then 1%nat else 0%nat
  | None => 0%nat
  end.
Proof.
  intros W. unfold Discovery.sweeper_tick.
  rewrite (sweep_removes _ _ _ (to_delete_nodup _ _ W)), (to_delete_mem _ _ _ W).
  unfold dict_mem, Discovery.expired. destruct (dict_get mid (seen st)) as [i|]; [|reflexivity].
  rewrite andb_true_r. reflexivity.
Qed.

Lemma sweep_writes mid mids st : writes mid (snd (sweep mids st)) = 0%nat.
Proof.
  revert st. induction mids as [|k rest IH]; intros st; [reflexivity|].
  destruct (dict_get k (seen st)) as [i|] eqn:E.
  - rewrite (sweep_cons_present _ _ _ _ E). cbn [snd]. rewrite !writes_cons. cbn [is_write].
    apply IH.
  - rewrite (sweep_cons_absent _ _ _ E). apply IH.
Qed.

(** *** One step of the listener *)

Lemma step_tick now st :
  step (Tick now) st = (Running (fst (sweeper_tick now st)), snd (sweeper_tick now st)).
Proof.
  cbn [Discovery.step]. destruct (Discovery.sweeper_tick _ _ _ _ _). reflexivity.
Qed.

Lemma step_well_formed e st : well_formed st -> well_formed (state_of (fst (step e st))).
Proof.
  intros W. destruct e as [pkt now|now].
  - cbn [Discovery.step]. destruct (parse pkt) as [q|] eqn:P.
    + destruct (Z.eq_dec (deletion q) 0) as [D|D].
      * rewrite (on_packet_announce _ _ _ _ P D). apply on_announce_well_formed, W.
      * rewrite (on_packet_delete _ _ _ _ P D). apply on_delete_well_formed, W.
    + unfold Discovery.on_packet. rewrite P. exact W.
  - rewrite step_tick. apply sweep_well_formed, W.
Qed.

Lemma run_cons e rest st :
  run (e :: rest) st =
  match fst (step e st) with
  | Running st' => (fst (run rest st'), snd (step e st) ++ snd (run rest st'))
  | Raised st' => (Raised st', snd (step e st))
  end.
Proof.
  cbn [Discovery.run]. destruct (Discovery.step _ _ _ _ _ e st) as [[st'|st'] eff]; cbn [fst snd].
  - destruct (Discovery.run _ _ _ _ _ rest st'). reflexivity.
  - reflexivity.
Qed.

(** An announcement for an id already in the table calls no sink
    operation and prints nothing; when it carries the title and the
    document of the record, only [last_seen] changes. *)
Lemma refresh_same_content q now st t0 :
  dict_get (msg_id q) (seen st) =
    Some (Info (title_of q) (fpath_of (title_of q)) t0 (sdp_text q)) ->
  snd (on_announce q now st) = []
  /\ dict_get (msg_id q) (seen (state_of (fst (on_announce q now st)))) =
     Some (Info (title_of q) (fpath_of (title_of q)) now (sdp_text q))
  /\ world (state_of (fst (on_announce q now st))) = world st.
Proof.
  intros G. rewrite on_announce_record. rewrite (on_announce_again _ _ _ _ G).
  repeat split.
Qed.

(** *** Removal *)

(** C7.  A deletion for an id that is not in the table changes neither
    the table nor the file system, calls no sink operation, prints one
    line and leaves the loop running; so does a second deletion for an
    id just deleted. *)
Theorem delete_absent_is_noop pkt now now' st q :
  parse pkt = Some q ->
  deletion q <> 0 ->
  (dict_get (msg_id q) (seen st) = None ->
   on_packet pkt now st = (Running st, [Log (lit "Deleted " ++ str_of_int (msg_id q))]))
  /\ (forall st1 eff,
        on_packet pkt now st = (Running st1, eff) ->
        on_packet pkt now' st1 =
        (Running st1, [Log (lit "Deleted " ++ str_of_int (msg_id q))]))
  /\ exists st1, fst (on_packet pkt now st) = Running st1.
Proof.
  intros P D. split; [|split].
  - intros A. rewrite (on_packet_delete _ _ _ _ P D), (on_delete_absent _ _ A). reflexivity.
  - intros st1 eff H. rewrite (on_packet_delete _ _ _ _ P D) in H.
    injection H as H1 _. pose proof (on_delete_gone (msg_id q) st) as A. rewrite H1 in A.
    rewrite (on_packet_delete _ _ _ _ P D), (on_delete_absent _ _ A). reflexivity.
  - rewrite (on_packet_delete _ _ _ _ P D). eexists. reflexivity.
Qed.

(** C8.  Whatever the sink's remove does, and also when it raises, a
    deletion or an eviction of a present id drops the record and the
    loop goes on: the record is popped before the sink is called, and
    what the call raises is swallowed. *)
Theorem removal_survives_sink_failure mid i st :
  well_formed st ->
  dict_get mid (seen st) = Some i ->
  (forall pkt now q,
      parse pkt = Some q -> deletion q <> 0 -> msg_id q = mid ->
      on_packet pkt now st =
      (Running (State (dict_del mid (seen st)) (fst (fs_unlink (path i) (world st)))),
       [SinkRemove mid (path i) (snd (fs_unlink (path i) (world st)));
        Log (removed_line (lit "Deleted") i mid)]))
  /\ dict_get mid (dict_del mid (seen st)) = None
  /\ (forall t, t - last_seen i > expire_sec ->
        exists st1 eff,
          step (Tick t) st = (Running st1, eff)
          /\ dict_get mid (seen st1) = None
          /\ removes mid eff = 1%nat).
Proof.
  intros W G. split; [|split].
  - intros pkt now q P D <-.
    rewrite (on_packet_delete _ _ _ _ P D), (on_delete_present _ _ _ G). reflexivity.
  - apply dict_get_del_same.
  - intros t T. rewrite step_tick. do 2 eexists. split; [reflexivity|].
    rewrite (sweeper_tick_get _ _ _ W), (sweeper_tick_removes _ _ _ W), G.
    destruct (Z.gtb_spec (t - last_seen i) expire_sec); [split; reflexivity|lia].
Qed.

End DiscoveryFacts.

(** ** The document and its file name *)

Lemma parse_inv (pkt : bytes) (q : parsed) :
  parse pkt = Some q ->
  8 <= len pkt
  /\ off q = 8 + auth_len q * 4
  /\ payload q = slice_from (off q) pkt
  /\ sdp_text q = strip (decode_utf8_replace (payload q)).
Proof.
  intros P. destruct (Z.lt_ge_cases (len pkt) 8) as [L|G].
  - rewrite (parse_short pkt L) in P. discriminate P.
  - destruct (parse_long pkt G) as (q' & P' & _ & O & Y & T).
    rewrite P in P'. injection P' as <-. auto.
Qed.

Lemma lstrip_hd (s : str) (c : Z) : hd_error (lstrip s) = Some c -> isspace c = false.
Proof.
  induction s as [|x r IH]; cbn [lstrip]; [discriminate|].
  destruct (isspace x) eqn:E; [exact IH|].
  cbn. intros [= <-]. exact E.
Qed.

Lemma lstrip_suffix (s : str) : exists pre, s = pre ++ lstrip s.
Proof.
  induction s as [|x r [pre IH]]; cbn [lstrip]; [exists []; reflexivity|].
  destruct (isspace x).
  - exists (x :: pre). cbn. rewrite <- IH. reflexivity.
  - exists []. reflexivity.
Qed.

Lemma rstrip_prefix (s : str) : exists suf, s = rstrip s ++ suf.
Proof.
  unfold rstrip. destruct (lstrip_suffix (rev s)) as [pre H].
  exists (rev pre). rewrite <- rev_app_distr, <- H, rev_involutive. reflexivity.
Qed.

(** A stripped text neither starts nor ends with white space. *)
Lemma strip_ends (s : str) (c : Z) :
  (hd_error (strip s) = Some c -> isspace c = false)
  /\ (hd_error (rev (strip s)) = Some c -> isspace c = false).
Proof.
  unfold strip. split.
  - destruct (rstrip_prefix (lstrip s)) as [suf H].
    destruct (rstrip (lstrip s)) as [|x r] eqn:E; [discriminate|].
    cbn. intros [= <-]. apply (lstrip_hd s). rewrite H. reflexivity.
  - unfold rstrip. rewrite rev_involutive. apply lstrip_hd.
Qed.

Lemma replace_char_nth (old new : Z) (s : str) (n : nat) (c : Z) :
  nth_error s n = Some c ->
  nth_error (replace_char old new s) n = Some (if c =? old then new else c).
Proof.
  intros H. unfold replace_char. rewrite nth_error_map, H. reflexivity.
Qed.


(** ** Scenarios *)

Import Scenario.

Example scenario_A :
  listen [Datagram announce_test 0] start =
  (Running (State [(4660, Info (lit "Test Session") (lit "out/Test_Session.sdp") 0
                           (lit "v=0" ++ [10] ++ lit "s=Test Session"))]
                  [(lit "out/Test_Session.sdp", lit "v=0" ++ [10] ++ lit "s=Test Session" ++ [10])]),
   [SinkWrite 4660 (lit "out/Test_Session.sdp")
      (lit "v=0" ++ [10] ++ lit "s=Test Session" ++ [10]) false;
    Log (lit "New: Test Session " ++ [8594] ++ lit " wrote out/Test_Session.sdp")]).
Proof. vm_compute. reflexivity. Qed.

Example scenario_D :
  snd (listen [Datagram announce_test 0; Tick 300; Tick 301] start) =
  [SinkWrite 4660 (lit "out/Test_Session.sdp")
     (lit "v=0" ++ [10] ++ lit "s=Test Session" ++ [10]) false;
   Log (lit "New: Test Session " ++ [8594] ++ lit " wrote out/Test_Session.sdp");
   SinkRemove 4660 (lit "out/Test_Session.sdp") false;
   Log (lit "Expired: Test Session (4660) " ++ [8594] ++ lit " removed out/Test_Session.sdp")].
Proof. vm_compute. reflexivity. Qed.

Example scenario_E : listen [Datagram [x20; x00; x12; x34; x00] 0] start = (Running start, []).
Proof. vm_compute. reflexivity. Qed.

Example title_escapes_output_dir :
  snd (listen [Datagram ([x20; x00; x00; x01; x00; x00; x00; x00]
                           ++ blit "s=../../etc/cron.d/x y") 0] start) =
  [SinkWrite 1 (lit "out/../../etc/cron.d/x_y.sdp") (lit "s=../../etc/cron.d/x y" ++ [10]) false;
   Log (lit "New: ../../etc/cron.d/x y " ++ [8594] ++ lit " wrote out/../../etc/cron.d/x_y.sdp")].
Proof. vm_compute. reflexivity. Qed.

(** C4 on the code.  The announcement [s=B] for the id already created
    with [s=A] writes nothing, but replaces the whole record: title,
    path and document are those of [s=B].  The deletion that follows
    then unlinks [out/B.sdp], which was never written, and the file
    [out/A.sdp] written at creation stays on disk. *)
Theorem refresh_replaces_record :
  listen [Datagram announce_A 0] start =
    (Running (State [(4660, record_A 0)] [(lit "out/A.sdp", lit "s=A" ++ [10])]),
     [SinkWrite 4660 (lit "out/A.sdp") (lit "s=A" ++ [10]) false;
      Log (lit "New: A " ++ [8594] ++ lit " wrote out/A.sdp")])
  /\ listen [Datagram announce_B 10] (State [(4660, record_A 0)] [(lit "out/A.sdp", lit "s=A" ++ [10])]) =
    (Running (State [(4660, Info (lit "B") (lit "out/B.sdp") 10 (lit "s=B"))]
                    [(lit "out/A.sdp", lit "s=A" ++ [10])]),
     [])
  /\ listen [Datagram announce_A 0; Datagram announce_B 10; Datagram delete_1234 20] start =
    (Running (State [] [(lit "out/A.sdp", lit "s=A" ++ [10])]),
     [SinkWrite 4660 (lit "out/A.sdp") (lit "s=A" ++ [10]) false;
      Log (lit "New: A " ++ [8594] ++ lit " wrote out/A.sdp");
      SinkRemove 4660 (lit "out/B.sdp") false;
      Log (lit "Deleted: B (4660) " ++ [8594] ++ lit " removed out/B.sdp")]).
Proof.
  repeat split; vm_compute; reflexivity.
Qed.

(** ** The theorems at the scenarios *)

Lemma start_well_formed : well_formed start.
Proof. constructor. Defined.

Lemma delete_absent_is_noop_witness :
  parse delete_1234 = Some parsed_delete
  /\ deletion parsed_delete <> 0
  /\ Discovery.on_packet files files_write files_unlink (lit "out") delete_1234 0 start
     = (Running start, [Log (lit "Deleted 4660")]).
Proof.
  assert (parse delete_1234 = Some parsed_delete) as P by (vm_compute; reflexivity).
  assert (deletion parsed_delete <> 0) as D by (vm_compute; discriminate).
  destruct (delete_absent_is_noop files_write files_unlink (lit "out")
              delete_1234 0 1 start parsed_delete P D) as (H & _).
  split; [exact P|]. split; [exact D|]. exact (H eq_refl).
Defined.

Lemma removal_survives_sink_failure_witness :
  let st := State [(4660, record_A 0)] tt in
  well_formed st
  /\ dict_get 4660 (seen st) = Some (record_A 0)
  /\ Discovery.on_packet unit broken_write broken_unlink (lit "out") delete_1234 20 st
     = (Running (State [] tt),
        [SinkRemove 4660 (lit "out/A.sdp") true;
         Log (removed_line (lit "Deleted") (record_A 0) 4660)])
  /\ exists st1 eff,
      Discovery.step unit broken_write broken_unlink (lit "out") 300 (Tick 301) st
      = (Running st1, eff)
      /\ dict_get 4660 (seen st1) = None
      /\ removes 4660 eff = 1%nat.
Proof.
  intros st.
  assert (well_formed st) as W.
  { repeat constructor; simpl; intuition discriminate. }
  assert (dict_get 4660 (seen st) = Some (record_A 0)) as G by reflexivity.
  assert (parse delete_1234 = Some parsed_delete) as P by (vm_compute; reflexivity).
  assert (deletion parsed_delete <> 0) as D by (vm_compute; discriminate).
  destruct (removal_survives_sink_failure broken_write broken_unlink (lit "out") 300
              4660 (record_A 0) st W G) as (H & _ & T).
  split; [exact W|]. split; [exact G|]. split.
  - exact (H delete_1234 20 parsed_delete P D eq_refl).
  - apply T. vm_compute. reflexivity.
Defined.


(** ** Further laws of the session table *)

Lemma dict_set_set {V} (k : Z) (v1 v2 : V) (d : dict V) :
  dict_set k v2 (dict_set k v1 d) = dict_set k v2 d.
Proof.
  induction d as [|[k' v'] r IH]; cbn [dict_set].
  - rewrite Z.eqb_refl. reflexivity.
  - destruct (k' =? k) eqn:E; cbn [dict_set].
    + rewrite Z.eqb_refl. reflexivity.
    + rewrite E, IH. reflexivity.
Qed.

Lemma dict_del_set_absent {V} (k : Z) (v : V) (d : dict V) :
  dict_get k d = None -> dict_del k (dict_set k v d) = d.
Proof.
  induction d as [|[k' v'] r IH]; cbn [dict_set dict_get].
  - intros _. unfold dict_del. cbn. rewrite Z.eqb_refl. reflexivity.
  - destruct (k' =? k) eqn:E; [discriminate|].
    intros H. unfold dict_del in *. cbn [filter fst]. rewrite E. cbn [negb].
    rewrite (IH H). reflexivity.
Qed.

Section ListenerLaws.

Context {World : Type}.
Variable fs_write : str -> str -> World -> World * bool.
Variable fs_unlink : str -> World -> World * bool.
Variable out_dir : str.
Variable expire_sec : Z.

Local Abbreviation on_delete := (Discovery.on_delete World fs_unlink).
Local Abbreviation on_announce := (Discovery.on_announce World fs_write out_dir).
Local Abbreviation on_packet := (Discovery.on_packet World fs_write fs_unlink out_dir).
Local Abbreviation sweep := (Discovery.sweep World fs_unlink).
Local Abbreviation sweeper_tick := (Discovery.sweeper_tick World fs_unlink expire_sec).
Local Abbreviation step := (Discovery.step World fs_write fs_unlink out_dir expire_sec).
Local Abbreviation run := (Discovery.run World fs_write fs_unlink out_dir expire_sec).
Local Abbreviation to_delete := (Discovery.to_delete expire_sec).
Local Abbreviation fpath_of := (Discovery.fpath_of out_dir).

Implicit Types (st : state World) (q : parsed) (i : info) (mid now : Z).

(** A datagram shorter than 8 bytes is dropped by both listeners: no
    state change, no file system call, nothing printed. *)
Theorem short_datagram_ignored pkt now st (rst : Receiver.state World) :
  len pkt < 8 ->
  on_packet pkt now st = (Running st, [])
  /\ Receiver.on_packet World fs_write pkt rst = (Receiver.Running rst, []).
Proof.
  intros H. unfold Discovery.on_packet, Receiver.on_packet.
  rewrite (parse_short pkt H). split; reflexivity.
Qed.

(** A datagram touches the record of its own id only: the record of any
    other id is left as it is, by an announcement and by a deletion. *)
Theorem datagram_leaves_other_ids pkt now st mid :
  (forall q, parse pkt = Some q -> msg_id q <> mid) ->
  dict_get mid (seen (state_of (fst (on_packet pkt now st)))) = dict_get mid (seen st).
Proof.
  intros H. destruct (parse pkt) as [q|] eqn:P.
  - pose proof (H q eq_refl) as N.
    destruct (Z.eq_dec (deletion q) 0) as [D|D].
    + rewrite (on_packet_announce fs_write fs_unlink out_dir _ _ _ _ P D).
      apply on_announce_other. congruence.
    + rewrite (on_packet_delete fs_write fs_unlink out_dir _ _ _ _ P D). cbn [fst state_of].
      apply on_delete_other. congruence.
  - unfold Discovery.on_packet. rewrite P. reflexivity.
Qed.

(** Hearing the same announcement again, at [t2] after [t1], calls no
    sink operation and prints nothing, leaves the file system alone, and
    gives the table that the announcement at [t2] alone would have
    given. *)
Theorem repeated_announcement_refreshes pkt t1 t2 st st1 eff1 q :
  parse pkt = Some q ->
  deletion q = 0 ->
  on_packet pkt t1 st = (Running st1, eff1) ->
  exists st2,
    on_packet pkt t2 st1 = (Running st2, [])
    /\ world st2 = world st1
    /\ seen st2 = dict_set (msg_id q)
                    (Info (title_of q) (fpath_of (title_of q)) t2 (sdp_text q)) (seen st).
Proof.
  intros P D H1.
  rewrite (on_packet_announce fs_write fs_unlink out_dir pkt t1 st q P D) in H1.
  rewrite (on_packet_announce fs_write fs_unlink out_dir pkt t2 st1 q P D).
  pose proof (on_announce_record fs_write out_dir q t1 st) as R.
  rewrite H1 in R. cbn [fst state_of] in R.
  rewrite (on_announce_again fs_write out_dir _ _ _ _ R).
  eexists. split; [reflexivity|]. cbn [world seen]. split; [reflexivity|].
  assert (seen st1 = dict_set (msg_id q)
                       (Info (title_of q) (fpath_of (title_of q)) t1 (sdp_text q)) (seen st)) as ->.
  { destruct (dict_get (msg_id q) (seen st)) as [i|] eqn:E.
    - rewrite (on_announce_again fs_write out_dir _ _ _ _ E) in H1.
      injection H1 as <- _. reflexivity.
    - rewrite (on_announce_first fs_write out_dir _ _ _ E) in H1.
      destruct (snd (fs_write _ _ _)); [discriminate H1|].
      injection H1 as <- _. reflexivity. }
  apply dict_set_set.
Qed.

(** A deletion that follows the creation of a session gives back the
    table as it was, and its sink remove names the very path the
    creation wrote. *)
Theorem create_then_delete_restores pkt pktd t1 t2 st st1 eff1 q qd :
  parse pkt = Some q -> deletion q = 0 ->
  parse pktd = Some qd -> deletion qd <> 0 -> msg_id qd = msg_id q ->
  dict_get (msg_id q) (seen st) = None ->
  on_packet pkt t1 st = (Running st1, eff1) ->
  exists w raised,
    eff1 = [SinkWrite (msg_id q) (fpath_of (title_of q)) (sdp_text q ++ [10]) false;
            Log (new_line (title_of q) (fpath_of (title_of q)))]
    /\ on_packet pktd t2 st1 =
       (Running (State (seen st) w),
        [SinkRemove (msg_id q) (fpath_of (title_of q)) raised;
         Log (removed_line (lit "Deleted")
                (Info (title_of q) (fpath_of (title_of q)) t1 (sdp_text q)) (msg_id q))]).
Proof.
  intros P D Pd Dd M A H1.
  rewrite (on_packet_announce fs_write fs_unlink out_dir _ _ _ _ P D) in H1.
  rewrite (on_announce_first fs_write out_dir _ _ _ A) in H1.
  destruct (snd (fs_write _ _ _)); [discriminate H1|].
  injection H1 as <- <-.
  rewrite (on_packet_delete fs_write fs_unlink out_dir _ _ _ _ Pd Dd), M.
  erewrite on_delete_present by (cbn [seen]; apply dict_get_set_same).
  cbn [fst snd seen world path]. rewrite (dict_del_set_absent _ _ _ A).
  do 2 eexists. split; reflexivity.
Qed.

(** After a sweep nothing stale is left: a second sweep, at the same or
    an earlier clock reading, removes nothing and prints nothing. *)
Theorem second_sweep_is_idle now now' st :
  well_formed st ->
  now' <= now ->
  sweeper_tick now' (fst (sweeper_tick now st)) = (fst (sweeper_tick now st), []).
Proof.
  intros W L.
  pose proof (sweep_well_formed fs_unlink (to_delete now (seen st)) st W) as W'.
  fold (sweeper_tick now st) in W'.
  assert (to_delete now' (seen (fst (sweeper_tick now st))) = []) as E.
  { unfold Discovery.to_delete.
    assert (forall kv, In kv (seen (fst (sweeper_tick now st))) ->
                       Discovery.expired expire_sec now' (snd kv) = false) as F.
    { intros [k i] I. apply (dict_in_get _ _ _ W') in I.
      rewrite (sweeper_tick_get fs_unlink expire_sec _ _ _ W) in I.
      destruct (dict_get k (seen st)) as [i0|]; [|discriminate I].
      destruct (Z.gtb_spec (now - last_seen i0) expire_sec) as [|G]; [discriminate I|].
      injection I as <-. cbn [snd]. unfold Discovery.expired.
      destruct (Z.gtb_spec (now' - last_seen i0) expire_sec); [lia|reflexivity]. }
    induction (seen (fst (sweeper_tick now st))) as [|kv r IH]; [reflexivity|].
    cbn [filter]. rewrite (F kv) by (left; reflexivity).
    apply IH. intros kv' I. apply F. right. exact I. }
  unfold Discovery.sweeper_tick at 1. rewrite E. reflexivity.
Qed.

End ListenerLaws.

(** ** What the listeners read from a well-formed header *)

Lemma flags_deletion_bit (V A R T E C : Z) :
  0 <= V < 8 -> 0 <= A < 2 -> 0 <= R < 2 -> 0 <= T < 2 -> 0 <= E < 2 -> 0 <= C < 2 ->
  let b := V * 32 + A * 16 + R * 8 + T * 4 + E * 2 + C in
  0 <= b < 256 /\ Z.land (Z.shiftr b 2) 1 = T.
Proof.
  intros HV HA HR HT HE HC b. split; [unfold b; lia|].
  rewrite Z.shiftr_div_pow2 by lia. change 1 with (Z.ones 1).
  rewrite Z.land_ones by lia. change (2 ^ 2) with 4. change (2 ^ 1) with 2.
  assert (b / 4 = V * 8 + A * 4 + R * 2 + T) as ->.
  { unfold b. symmetry. apply (Z.div_unique _ 4 _ (E * 2 + C)); lia. }
  symmetry. apply (Z.mod_unique _ 2 (V * 4 + A * 2 + R)); lia.
Qed.

(** A header with any flags, any count [a] of authentication words and
    any 16-bit id, followed by a 4-byte address, [4 * a] bytes of
    authentication data and a payload, is read back field by field: the
    type bit decides deletion, the authentication data is skipped as
    announced, and the payload is what follows it. *)
Theorem listener_reads_header (V A R T E C a m : Z) (addr auth p : bytes) :
  0 <= V < 8 -> 0 <= A < 2 -> 0 <= R < 2 -> 0 <= T < 2 -> 0 <= E < 2 -> 0 <= C < 2 ->
  0 <= a < 256 -> 0 <= m < 65536 ->
  len addr = 4 -> len auth = a * 4 ->
  let b := V * 32 + A * 16 + R * 8 + T * 4 + E * 2 + C in
  parse (pack_BBH b a m ++ addr ++ auth ++ p) =
  Some (Parsed b a m T (8 + a * 4) p (strip (decode_utf8_replace p))).
Proof.
  intros HV HA HR HT HE HC Ha Hm Haddr Hauth b.
  destruct (flags_deletion_bit V A R T E C HV HA HR HT HE HC) as [Hb HD]. fold b in Hb, HD.
  unfold len in Haddr.
  destruct addr as [|a0 [|a1 [|a2 [|a3 [|? ?]]]]]; cbn [List.length] in Haddr; try lia.
  unfold pack_BBH. cbn [app]. rewrite parse_cons8.
  rewrite unpack_pack_H by exact Hm.
  rewrite !b2z_z2b, (Z.mod_small b), (Z.mod_small a) by lia.
  rewrite HD. change (4 + 4 + a * 4) with (8 + a * 4).
  assert (slice_from (8 + a * 4)
            (z2b b :: z2b a :: z2b (Z.shiftr m 8) :: z2b (Z.land m 255)
               :: a0 :: a1 :: a2 :: a3 :: auth ++ p) = p) as ->; [|reflexivity].
  unfold slice_from. unfold len in Hauth.
  replace (Z.to_nat (8 + a * 4)) with (8 + List.length auth)%nat by lia.
  cbn [Nat.add skipn]. rewrite skipn_app, skipn_all, Nat.sub_diag. reflexivity.
Qed.

(** ** Titles and file names *)

Lemma lstrip_forall (P : Z -> Prop) (s : str) : Forall P s -> Forall P (lstrip s).
Proof.
  intros H. destruct (lstrip_suffix s) as [pre E]. rewrite E in H.
  apply Forall_app in H. tauto.
Qed.

Lemma strip_forall (P : Z -> Prop) (s : str) : Forall P s -> Forall P (strip s).
Proof.
  intros H. unfold strip, rstrip.
  apply Forall_rev, lstrip_forall, Forall_rev, lstrip_forall, H.
Qed.

Lemma slice_from_forall {A} (P : A -> Prop) (n : Z) (s : list A) :
  Forall P s -> Forall P (slice_from n s).
Proof.
  intros H. unfold slice_from. rewrite <- (firstn_skipn (Z.to_nat n) s) in H.
  apply Forall_app in H. tauto.
Qed.

Lemma splitlines_from_lines_tl (s : str) :
  (forall cur, Forall (fun c => is_linebreak c = false) cur ->
               Forall (Forall (fun c => is_linebreak c = false)) (splitlines_from cur s))
  /\ (forall cur, Forall (fun c => is_linebreak c = false) cur ->
                  Forall (Forall (fun c => is_linebreak c = false))
                         (splitlines_from cur (tl s))).
Proof.
  assert (forall cur, Forall (fun c => is_linebreak c = false) cur ->
                      Forall (Forall (fun c => is_linebreak c = false)) (splitlines_from cur []))
    as Base.
  { intros cur H. cbn [splitlines_from].
    destruct cur; constructor; [apply Forall_rev; exact H|constructor]. }
  induction s as [|c r [IH IHt]]; [split; exact Base|].
  split; [|exact IH].
  intros cur H. cbn [splitlines_from].
  destruct (Z.eqb_spec c 13) as [->|N].
  - destruct r as [|d r'].
    + constructor; [apply Forall_rev; exact H|]. apply Base. constructor.
    + destruct (d =? 10).
      * constructor; [apply Forall_rev; exact H|]. apply IHt. constructor.
      * constructor; [apply Forall_rev; exact H|]. apply IH. constructor.
  - destruct (is_linebreak c) eqn:B.
    + constructor; [apply Forall_rev; exact H|]. apply IH. constructor.
    + apply IH. constructor; assumption.
Qed.

Lemma splitlines_from_lines (cur s : str) :
  Forall (fun c => is_linebreak c = false) cur ->
  Forall (Forall (fun c => is_linebreak c = false)) (splitlines_from cur s).
Proof.
  apply splitlines_from_lines_tl.
Qed.

Lemma first_title_line (lines : list str) (t : str) :
  first_title lines = Some t ->
  exists line, In line lines /\ startswith line (lit "s=") = true
               /\ t = strip (slice_from 2 line).
Proof.
  induction lines as [|l r IH]; cbn [first_title]; [discriminate|].
  destruct (startswith l (lit "s=")) eqn:S.
  - intros [= <-]. exists l. split; [left; reflexivity|]. split; [exact S|reflexivity].
  - intros H. destruct (IH H) as (line & I & R). exists line. split; [right; exact I|exact R].
Qed.

Lemma first_title_none (lines : list str) :
  first_title lines = None <-> Forall (fun l => startswith l (lit "s=") = false) lines.
Proof.
  induction lines as [|l r IH]; cbn [first_title].
  - split; [constructor|reflexivity].
  - destruct (startswith l (lit "s=")) eqn:S.
    + split; [discriminate|]. intros H. inversion H. congruence.
    + rewrite IH. split; [intros H; constructor; assumption|intros H; inversion H; assumption].
Qed.

(** The title [parse_title] finds is the stripped rest of a line that
    starts with [s=]: it holds no line break and neither starts nor ends
    with white space; there is no title exactly when no line starts with
    [s=]. *)
Theorem parse_title_shape (s : str) :
  (forall t, parse_title s = Some t ->
             Forall (fun c => is_linebreak c = false) t
             /\ (forall c, hd_error t = Some c -> isspace c = false)
             /\ (forall c, hd_error (rev t) = Some c -> isspace c = false)
             /\ exists line, In line (splitlines s) /\ startswith line (lit "s=") = true
                             /\ t = strip (slice_from 2 line))
  /\ (parse_title s = None <->
      Forall (fun l => startswith l (lit "s=") = false) (splitlines s)).
Proof.
  split.
  - intros t H. unfold parse_title in H.
    destruct (first_title_line _ _ H) as (line & I & S & ->).
    split; [|split; [|split]].
    + apply strip_forall, slice_from_forall.
      pose proof (splitlines_from_lines [] s (Forall_nil _)) as K.
      rewrite Forall_forall in K. exact (K line I).
    + intros c. apply strip_ends.
    + intros c. apply strip_ends.
    + exists line. repeat split; assumption.
  - apply first_title_none.
Qed.

Lemma startswith_app (p r : str) : startswith (p ++ r) p = true.
Proof.
  induction p as [|c p IH]; [destruct r; reflexivity|].
  cbn [app startswith]. rewrite Z.eqb_refl. exact IH.
Qed.

(** Whatever the title, the file name holds no space, ends in [.sdp],
    and is four characters longer than the title. *)
Theorem fname_shape (title : str) :
  Forall (fun c => c <> 32) (Discovery.fname_of title)
  /\ endswith (Discovery.fname_of title) (lit ".sdp") = true
  /\ List.length (Discovery.fname_of title) = (List.length title + 4)%nat.
Proof.
  unfold Discovery.fname_of. split; [|split].
  - apply Forall_app. split.
    + unfold replace_char. apply Forall_map, Forall_forall. intros c _.
      destruct (Z.eqb_spec c 32); lia.
    + repeat constructor; discriminate.
  - unfold endswith. rewrite rev_app_distr. apply startswith_app.
  - rewrite length_app. unfold replace_char. rewrite length_map. reflexivity.
Qed.

(** ** [sap_receiver.py] *)

(** [sap_receiver.py] keeps what it saw first: a second announcement
    for a known id changes nothing at all, whatever its document.  A
    deletion forgets the id without touching the file system, so the
    file stays and the next announcement for the id writes again. *)
Theorem receiver_keeps_first {World : Type}
        (fs_write : str -> str -> World -> World * bool)
        (pkt : bytes) (q : parsed) (rst : Receiver.state World) :
  parse pkt = Some q ->
  (deletion q = 0 ->
   forall doc, dict_get (msg_id q) (Receiver.seen rst) = Some doc ->
               Receiver.on_packet World fs_write pkt rst = (Receiver.Running rst, []))
  /\ (deletion q <> 0 ->
      exists rst',
        Receiver.on_packet World fs_write pkt rst =
          (Receiver.Running rst', [Receiver.Log (lit "Deleted " ++ str_of_int (msg_id q))])
        /\ Receiver.world rst' = Receiver.world rst
        /\ dict_get (msg_id q) (Receiver.seen rst') = None
        /\ forall pkt' q', parse pkt' = Some q' -> deletion q' = 0 -> msg_id q' = msg_id q ->
             exists raised rest,
               snd (Receiver.on_packet World fs_write pkt' rst') =
               Receiver.FileWrite (Receiver.fname_of (parse_title (sdp_text q')) (msg_id q'))
                 (sdp_text q' ++ [10]) raised :: rest).
Proof.
  intros P. split.
  - intros D doc G. unfold Receiver.on_packet. rewrite P, D. cbn [Z.eqb negb].
    unfold dict_mem. rewrite G. reflexivity.
  - intros D. unfold Receiver.on_packet at 1. rewrite P.
    destruct (Z.eqb_spec (deletion q) 0) as [|_]; [contradiction|]. cbn [negb].
    eexists. split; [reflexivity|]. cbn [Receiver.world Receiver.seen dict_pop snd].
    split; [reflexivity|]. split; [apply dict_get_del_same|].
    intros pkt' q' P' D' M. unfold Receiver.on_packet. rewrite P', D'. cbn [Z.eqb negb].
    unfold dict_mem. cbn [Receiver.seen]. rewrite M, dict_get_del_same. cbn [negb].
    destruct (fs_write _ _ _) as [w [|]]; do 2 eexists; reflexivity.
Qed.

(** ** UTF-8: encoding, then decoding *)

Lemma lor_mul_pow2 (k hi lo : Z) :
  0 <= k -> 0 <= hi -> 0 <= lo < 2 ^ k -> Z.lor (hi * 2 ^ k) lo = hi * 2 ^ k + lo.
Proof.
  intros Hk Hhi Hlo.
  assert (Z.land (hi * 2 ^ k) lo = 0) as D.
  { apply Z.bits_inj'. intros n Hn. rewrite Z.land_spec, Z.bits_0.
    destruct (Z.lt_ge_cases n k) as [L|G].
    - rewrite Z.mul_pow2_bits_low by lia. reflexivity.
    - assert (Z.testbit lo n = false) as ->; [|apply andb_false_r].
      destruct (Z.eq_dec lo 0) as [->|NZ]; [apply Z.bits_0|].
      apply Z.bits_above_log2; [lia|].
      assert (Z.log2 lo < k); [|lia].
      apply Z.log2_lt_pow2; lia. }
  rewrite <- Z.lxor_lor by exact D. symmetry. apply Z.add_nocarry_lxor. exact D.
Qed.

Lemma shl_lor (k A B : Z) :
  0 <= k -> 0 <= A -> 0 <= B < 2 ^ k -> Z.lor (Z.shiftl A k) B = A * 2 ^ k + B.
Proof.
  intros. rewrite Z.shiftl_mul_pow2 by lia. apply lor_mul_pow2; lia.
Qed.

Lemma lor_192 (x : Z) : 0 <= x < 64 -> Z.lor 192 x = 192 + x.
Proof. intros. apply (lor_mul_pow2 6 3 x); lia. Qed.

Lemma lor_128 (x : Z) : 0 <= x < 64 -> Z.lor 128 x = 128 + x.
Proof. intros. apply (lor_mul_pow2 6 2 x); lia. Qed.

Lemma lor_224 (x : Z) : 0 <= x < 32 -> Z.lor 224 x = 224 + x.
Proof. intros. apply (lor_mul_pow2 5 7 x); lia. Qed.

Lemma lor_240 (x : Z) : 0 <= x < 16 -> Z.lor 240 x = 240 + x.
Proof. intros. apply (lor_mul_pow2 4 15 x); lia. Qed.

Lemma land_low (n a : Z) : 0 <= n -> Z.land a (2 ^ n - 1) = a mod 2 ^ n.
Proof.
  intros H. rewrite <- Z.land_ones by exact H. f_equal.
  rewrite Z.ones_equiv. lia.
Qed.

Lemma land_63 (a : Z) : Z.land a 63 = a mod 64.
Proof. exact (land_low 6 a ltac:(lia)). Qed.

Lemma land_31 (a : Z) : Z.land a 31 = a mod 32.
Proof. exact (land_low 5 a ltac:(lia)). Qed.

Lemma land_15 (a : Z) : Z.land a 15 = a mod 16.
Proof. exact (land_low 4 a ltac:(lia)). Qed.

Lemma land_7 (a : Z) : Z.land a 7 = a mod 8.
Proof. exact (land_low 3 a ltac:(lia)). Qed.

Lemma utf8_replace_cons (c0 : Z) (r0 : list Z) :
  utf8_replace (c0 :: r0) =
  if c0 <? 128 then c0 :: utf8_replace r0
  else if c0 <? 194 then 65533 :: utf8_replace r0
  else if c0 <? 224 then
    match r0 with
    | [] => [65533]
    | c1 :: r1 =>
        if is_cont c1
        then Z.lor (Z.shiftl (Z.land c0 31) 6) (lo6 c1) :: utf8_replace r1
        else 65533 :: utf8_replace r0
    end
  else if c0 <? 240 then
    match r0 with
    | [] => [65533]
    | c1 :: r1 =>
        if negb (is_cont c1) || (if c1 <? 160 then c0 =? 224 else c0 =? 237)
        then 65533 :: utf8_replace r0
        else
          match r1 with
          | [] => [65533]
          | c2 :: r2 =>
              if is_cont c2
              then Z.lor (Z.shiftl (Z.land c0 15) 12)
                     (Z.lor (Z.shiftl (lo6 c1) 6) (lo6 c2)) :: utf8_replace r2
              else 65533 :: utf8_replace r1
          end
    end
  else if c0 <? 245 then
    match r0 with
    | [] => [65533]
    | c1 :: r1 =>
        if negb (is_cont c1) || (if c1 <? 144 then c0 =? 240 else c0 =? 244)
        then 65533 :: utf8_replace r0
        else
          match r1 with
          | [] => [65533]
          | c2 :: r2 =>
              if negb (is_cont c2) then 65533 :: utf8_replace r1
              else
                match r2 with
                | [] => [65533]
                | c3 :: r3 =>
                    if is_cont c3
                    then Z.lor (Z.shiftl (Z.land c0 7) 18)
                           (Z.lor (Z.shiftl (lo6 c1) 12)
                              (Z.lor (Z.shiftl (lo6 c2) 6) (lo6 c3)))
                           :: utf8_replace r3
                    else 65533 :: utf8_replace r2
                end
          end
    end
  else 65533 :: utf8_replace r0.
Proof. reflexivity. Qed.

Ltac ztest :=
  repeat match goal with
         | |- context [?a <? ?b] => destruct (Z.ltb_spec a b); try lia
         | |- context [?a <=? ?b] => destruct (Z.leb_spec a b); try lia
         | |- context [?a =? ?b] => destruct (Z.eqb_spec a b); try lia
         end.

Lemma utf8_replace_1 (c : Z) (rest : list Z) :
  0 <= c < 128 -> utf8_replace (c :: rest) = c :: utf8_replace rest.
Proof.
  intros H. rewrite utf8_replace_cons. ztest. reflexivity.
Qed.

Lemma utf8_replace_2 (x y : Z) (rest : list Z) :
  2 <= x < 32 -> 0 <= y < 64 ->
  utf8_replace (192 + x :: 128 + y :: rest) = x * 64 + y :: utf8_replace rest.
Proof.
  intros Hx Hy. rewrite utf8_replace_cons. cbv beta iota. unfold is_cont, lo6.
  rewrite land_31, land_63.
  replace ((192 + x) mod 32) with x by (Z.div_mod_to_equations; lia).
  replace ((128 + y) mod 64) with y by (Z.div_mod_to_equations; lia).
  ztest; cbn [negb orb andb].
  rewrite (shl_lor 6) by lia. change (2 ^ 6) with 64. reflexivity.
Qed.

Lemma utf8_replace_3 (x y z : Z) (rest : list Z) :
  0 <= x < 16 -> 0 <= y < 64 -> 0 <= z < 64 ->
  (x = 0 -> 32 <= y) -> (x = 13 -> y < 32) ->
  utf8_replace (224 + x :: 128 + y :: 128 + z :: rest)
  = x * 4096 + y * 64 + z :: utf8_replace rest.
Proof.
  intros Hx Hy Hz L S. rewrite utf8_replace_cons. cbv beta iota. unfold is_cont, lo6.
  rewrite land_15, !land_63.
  replace ((224 + x) mod 16) with x by (Z.div_mod_to_equations; lia).
  replace ((128 + y) mod 64) with y by (Z.div_mod_to_equations; lia).
  replace ((128 + z) mod 64) with z by (Z.div_mod_to_equations; lia).
  ztest; cbn [negb orb andb]; ztest; cbn [negb orb andb].
  all: rewrite (shl_lor 6) by lia; change (2 ^ 6) with 64.
  all: rewrite (shl_lor 12) by lia; change (2 ^ 12) with 4096.
  all: f_equal; lia.
Qed.

Lemma utf8_replace_4 (x y z w : Z) (rest : list Z) :
  0 <= x < 5 -> 0 <= y < 64 -> 0 <= z < 64 -> 0 <= w < 64 ->
  (x = 0 -> 16 <= y) -> (x = 4 -> y < 16) ->
  utf8_replace (240 + x :: 128 + y :: 128 + z :: 128 + w :: rest)
  = x * 262144 + y * 4096 + z * 64 + w :: utf8_replace rest.
Proof.
  intros Hx Hy Hz Hw L S. rewrite utf8_replace_cons. cbv beta iota. unfold is_cont, lo6.
  rewrite land_7, !land_63.
  replace ((240 + x) mod 8) with x by (Z.div_mod_to_equations; lia).
  replace ((128 + y) mod 64) with y by (Z.div_mod_to_equations; lia).
  replace ((128 + z) mod 64) with z by (Z.div_mod_to_equations; lia).
  replace ((128 + w) mod 64) with w by (Z.div_mod_to_equations; lia).
  ztest; cbn [negb orb andb]; ztest; cbn [negb orb andb]; ztest; cbn [negb orb andb].
  all: rewrite (shl_lor 6) by lia; change (2 ^ 6) with 64.
  all: rewrite (shl_lor 12) by lia; change (2 ^ 12) with 4096.
  all: rewrite (shl_lor 18) by lia; change (2 ^ 18) with 262144.
  all: f_equal; lia.
Qed.

Lemma some_eq {A} (a b : A) : Some a = Some b -> a = b.
Proof. congruence. Qed.

Lemma utf8_char_round_trip (c : Z) (bs rest : list Z) :
  utf8_encode_char c = Some bs ->
  Forall (fun b => 0 <= b < 256) bs
  /\ utf8_replace (bs ++ rest) = c :: utf8_replace rest.
Proof.
  unfold utf8_encode_char.
  destruct (Z.ltb_spec c 0); [discriminate|].
  destruct (Z.ltb_spec c 128).
  { intros E. apply some_eq in E. subst bs.
    split; [repeat constructor; lia|]. apply utf8_replace_1. lia. }
  destruct (Z.ltb_spec c 2048).
  { intros E. apply some_eq in E. subst bs.
    rewrite Z.shiftr_div_pow2, land_63 by lia. change (2 ^ 6) with 64.
    rewrite lor_192, lor_128 by (Z.div_mod_to_equations; lia).
    split; [repeat constructor; Z.div_mod_to_equations; lia|].
    cbn [app]. rewrite utf8_replace_2 by (Z.div_mod_to_equations; lia).
    f_equal. Z.div_mod_to_equations. lia. }
  destruct (Z.ltb_spec c 65536).
  { destruct (Z.leb_spec 55296 c); destruct (Z.leb_spec c 57343); cbn [andb];
      try discriminate.
    all: intros E; apply some_eq in E; subst bs;
      rewrite !Z.shiftr_div_pow2, !land_63 by lia;
      change (2 ^ 6) with 64; change (2 ^ 12) with 4096;
      rewrite lor_224, !lor_128 by (Z.div_mod_to_equations; lia);
      (split; [repeat constructor; Z.div_mod_to_equations; lia|]);
      cbn [app]; rewrite utf8_replace_3 by (Z.div_mod_to_equations; lia);
      f_equal; Z.div_mod_to_equations; lia. }
  destruct (Z.ltb_spec c 1114112); [|discriminate].
  intros E. apply some_eq in E. subst bs.
  rewrite !Z.shiftr_div_pow2, !land_63 by lia.
  change (2 ^ 6) with 64. change (2 ^ 12) with 4096. change (2 ^ 18) with 262144.
  rewrite lor_240, !lor_128 by (Z.div_mod_to_equations; lia).
  split; [repeat constructor; Z.div_mod_to_equations; lia|].
  cbn [app]. rewrite utf8_replace_4 by (Z.div_mod_to_equations; lia).
  f_equal. Z.div_mod_to_equations. lia.
Qed.

Lemma utf8_encode_char_scalar (c : Z) :
  (exists bs, utf8_encode_char c = Some bs) <-> is_scalar c = true.
Proof.
  unfold utf8_encode_char, is_scalar.
  destruct (Z.ltb_spec c 0); destruct (Z.leb_spec 0 c); try lia; cbn [andb].
  { split; [intros [bs E]; discriminate|discriminate]. }
  destruct (Z.ltb_spec c 128); destruct (Z.ltb_spec c 2048); destruct (Z.ltb_spec c 65536);
    destruct (Z.ltb_spec c 1114112); destruct (Z.leb_spec 55296 c);
    destruct (Z.leb_spec c 57343); try lia; cbn [andb negb];
    split; try discriminate; try (intros [bs E]; discriminate); eauto.
Qed.

Lemma utf8_encode_round_trip (s : str) (bs : list Z) :
  utf8_encode s = Some bs ->
  Forall (fun b => 0 <= b < 256) bs /\ utf8_replace bs = s.
Proof.
  revert bs. induction s as [|c r IH]; intros bs; cbn [utf8_encode].
  - intros [= <-]. split; [constructor|reflexivity].
  - destruct (utf8_encode_char c) as [a|] eqn:E; [|discriminate].
    destruct (utf8_encode r) as [b|]; [|discriminate].
    intros [= <-]. destruct (IH b eq_refl) as [R D].
    destruct (utf8_char_round_trip c a b E) as [Ra Da].
    split; [apply Forall_app; split; assumption|]. rewrite Da, D. reflexivity.
Qed.

Lemma utf8_encode_scalar (s : str) :
  (exists bs, utf8_encode s = Some bs) <-> forallb is_scalar s = true.
Proof.
  induction s as [|c r IH]; cbn [utf8_encode forallb].
  - split; [reflexivity|eauto].
  - rewrite andb_true_iff, <- IH, <- utf8_encode_char_scalar. split.
    + intros [bs H]. destruct (utf8_encode_char c); [|discriminate H].
      destruct (utf8_encode r); [|discriminate H]. eauto.
    + intros [[a ->] [b ->]]. eauto.
Qed.

Lemma b2z_z2b_list (bs : list Z) :
  Forall (fun b => 0 <= b < 256) bs -> map b2z (map z2b bs) = bs.
Proof.
  induction 1 as [|b r H _ IH]; [reflexivity|].
  cbn [map]. rewrite b2z_z2b, Z.mod_small, IH by lia. reflexivity.
Qed.

Lemma encode_then_decode (s : str) (b : bytes) :
  encode_utf8 s = Some b -> decode_utf8_replace b = s.
Proof.
  unfold encode_utf8, decode_utf8_replace. intros H.
  destruct (utf8_encode s) as [bs|] eqn:E; [|discriminate H].
  injection H as <-. destruct (utf8_encode_round_trip s bs E) as [R D].
  rewrite (b2z_z2b_list bs R). exact D.
Qed.

Lemma encode_defined (s : str) :
  (exists b, encode_utf8 s = Some b) <-> forallb is_scalar s = true.
Proof.
  unfold encode_utf8. rewrite <- utf8_encode_scalar. split.
  - intros [b H]. destruct (utf8_encode s) as [bs|]; [|discriminate H].
    exists bs. reflexivity.
  - intros [bs ->]. eexists. reflexivity.
Qed.

(** [encode("utf-8")] succeeds exactly on strings of scalar values (no
    surrogates), and decoding what it gives, with replacement as the
    listeners do, returns the string: nothing is replaced. *)
Theorem utf8_round_trip (s : str) :
  (forall b, encode_utf8 s = Some b -> decode_utf8_replace b = s)
  /\ ((exists b, encode_utf8 s = Some b) <-> forallb is_scalar s = true).
Proof.
  split.
  - intros b H. exact (encode_then_decode s b H).
  - apply encode_defined.
Qed.

(** ** From [make_sdp] to the listener's title *)

Lemma lstrip_app_nonspace (X Y : str) (c : Z) :
  isspace c = false -> lstrip (X ++ c :: Y) = lstrip X ++ c :: Y.
Proof.
  intros H. induction X as [|x r IH]; cbn [app lstrip].
  - rewrite H. reflexivity.
  - destruct (isspace x); [exact IH|reflexivity].
Qed.

Lemma rstrip_app_nonspace (A B : str) (c : Z) :
  isspace c = false -> rstrip (A ++ c :: B) = A ++ c :: rstrip B.
Proof.
  intros H. unfold rstrip. rewrite rev_app_distr. cbn [rev].
  rewrite <- app_assoc. cbn [app]. rewrite (lstrip_app_nonspace _ _ _ H).
  rewrite rev_app_distr. cbn [rev]. rewrite rev_involutive, <- app_assoc. reflexivity.
Qed.

Lemma splitlines_from_line (cur l X : str) :
  no_linebreak l = true ->
  splitlines_from cur (l ++ (10 :: X)) = (rev cur ++ l) :: splitlines_from [] X.
Proof.
  revert cur. induction l as [|c l IH]; intros cur H.
  - cbn [app splitlines_from]. rewrite app_nil_r. reflexivity.
  - unfold no_linebreak in H. cbn [forallb] in H. apply andb_prop in H as [Hc Hl].
    apply negb_true_iff in Hc.
    assert ((c =? 13) = false) as N.
    { destruct (Z.eqb_spec c 13) as [->|]; [discriminate Hc|reflexivity]. }
    cbn [app splitlines_from]. rewrite N, Hc. rewrite (IH (c :: cur) Hl).
    cbn [rev]. rewrite <- app_assoc. reflexivity.
Qed.

Lemma no_linebreak_app (a b : str) :
  no_linebreak (a ++ b) = no_linebreak a && no_linebreak b.
Proof.
  unfold no_linebreak. apply forallb_app.
Qed.

Lemma str_join_head (sep x : str) (l : list str) :
  exists tail, str_join sep (x :: l) = x ++ tail.
Proof.
  destruct l as [|y l]; cbn [str_join].
  - exists []. rewrite app_nil_r. reflexivity.
  - eexists. reflexivity.
Qed.

Lemma layout_assoc (a o s r : str) :
  a ++ 10 :: o ++ 10 :: s ++ 10 :: 105 :: r
  = (a ++ 10 :: o ++ 10 :: s ++ [10]) ++ 105 :: r.
Proof.
  repeat (rewrite <- ?app_assoc; cbn [app]). reflexivity.
Qed.

(** The text [make_sdp] encodes: two lines without an [s=] prefix, the
    [s=] line, and a rest that starts with the [i=] line. *)
Lemma sdp_text_layout (name group : str) (port pt : Z) (enc : str) (clock : Z)
      (plid : str) (source_ip : option str) (ttl : Z) (outbound_ip : str) :
  exists rest,
    str_join [10] (sdp_lines name group port pt enc clock plid source_ip ttl outbound_ip)
      ++ [10]
    = lit "v=0" ++ 10 :: (lit "o=sender 1 1 IN IP4 " ++ or_str source_ip outbound_ip)
        ++ 10 :: (lit "s=" ++ name) ++ 10 :: 105 :: rest.
Proof.
  unfold sdp_lines.
  set (tailing := match source_ip with Some (c :: r) => _ | _ => _ end).
  assert (exists l, tailing =
                    lit "v=0" :: (lit "o=sender 1 1 IN IP4 " ++ or_str source_ip outbound_ip)
                      :: (lit "s=" ++ name) :: (lit "i=" ++ enc ++ lit " RTP") :: l) as [l ->].
  { unfold tailing. destruct source_ip as [[|c r]|]; eexists; reflexivity. }
  destruct (str_join_head [10] (lit "i=" ++ enc ++ lit " RTP") l) as [tail E].
  cbn [str_join]. cbn [str_join] in E. rewrite E.
  exists (61 :: enc ++ lit " RTP" ++ tail ++ [10]).
  change (lit "i=") with [105; 61]. cbn [app].
  repeat (rewrite <- ?app_assoc; cbn [app]). reflexivity.
Qed.

(** A listener that receives the packet built around what [make_sdp]
    returns finds the session name as title: the name, stripped,
    provided neither the name nor the address on the [o=] line holds a
    line break.  The packet is an announcement. *)
Theorem sender_name_is_listener_title (name group : str) (port pt : Z) (enc : str)
        (clock : Z) (plid : str) (source_ip : option str) (ttl : Z) (outbound_ip : str)
        (sdp : bytes) (src : ipv4) :
  make_sdp name group port pt enc clock plid source_ip ttl outbound_ip = Some sdp ->
  no_linebreak name = true ->
  no_linebreak (or_str source_ip outbound_ip) = true ->
  exists q,
    parse (packet sdp src) = Some q
    /\ deletion q = 0
    /\ parse_title (sdp_text q) = Some (strip name)
    /\ title_of q = or_str (Some (strip name)) (session_name (msg_id q)).
Proof.
  intros M Hn Hip. eexists. split; [apply parse_packet|].
  cbn [deletion sdp_text msg_id]. split; [reflexivity|].
  unfold make_sdp in M. rewrite (encode_then_decode _ sdp M).
  destruct (sdp_text_layout name group port pt enc clock plid source_ip ttl outbound_ip)
    as [rest ->].
  set (oline := lit "o=sender 1 1 IN IP4 " ++ or_str source_ip outbound_ip).
  assert (strip (lit "v=0" ++ 10 :: oline ++ 10 :: (lit "s=" ++ name) ++ 10 :: 105 :: rest)
          = lit "v=0" ++ 10 :: oline ++ 10 :: (lit "s=" ++ name) ++ 10 :: 105 :: rstrip rest)
    as S.
  { unfold strip.
    assert (forall Y, lstrip (lit "v=0" ++ Y) = lit "v=0" ++ Y) as -> by reflexivity.
    rewrite (layout_assoc _ _ _ rest), (layout_assoc _ _ _ (rstrip rest)).
    apply rstrip_app_nonspace. reflexivity. }
  assert (parse_title
            (lit "v=0" ++ 10 :: oline ++ 10 :: (lit "s=" ++ name) ++ 10 :: 105 :: rstrip rest)
          = Some (strip name)) as T.
  { unfold parse_title, splitlines.
    rewrite splitlines_from_line by reflexivity.
    rewrite splitlines_from_line
      by (unfold oline; rewrite no_linebreak_app, Hip; reflexivity).
    rewrite splitlines_from_line by (rewrite no_linebreak_app, Hn; reflexivity).
    cbn [rev app first_title].
    change (startswith (lit "v=0") (lit "s=")) with false. cbv iota.
    change (startswith oline (lit "s=")) with false. cbv iota.
    rewrite startswith_app.
    change (slice_from 2 (lit "s=" ++ name)) with name. reflexivity. }
  unfold title_of. cbn [sdp_text msg_id].
  rewrite S, T. split; reflexivity.
Qed.

Lemma sha1_digest_length (b : bytes) : List.length (sha1_digest b) = 20%nat.
Proof.
  unfold sha1_digest.
  destruct (sha1_blocks _ _ _) as [[[[h0 h1] h2] h3] h4].
  rewrite length_map, !length_app. reflexivity.
Qed.

(** [group_from_name] never fails on a name that can be encoded: the
    digest has twenty bytes, so [h[0]] and [h[1]] exist, and the group
    is [239.255.x.y] with both octets between 0 and 255. *)
Theorem group_from_name_scoped (name : str) :
  forallb is_scalar name = true ->
  exists x y,
    group_from_name name
    = Some (lit "239.255." ++ str_of_int x ++ lit "." ++ str_of_int y)
    /\ 0 <= x < 256 /\ 0 <= y < 256.
Proof.
  intros H. apply encode_defined in H as [b E].
  unfold group_from_name. rewrite E.
  pose proof (sha1_digest_length b) as L.
  destruct (sha1_digest b) as [|x [|y r]]; cbn [List.length] in L; try lia.
  exists (b2z x), (b2z y). cbn [nth_error]. split; [reflexivity|].
  split; apply b2z_range.
Qed.

(** ** The further laws at the scenarios *)

Lemma short_datagram_ignored_witness :
  len [x20; x00; x12] < 8
  /\ Discovery.on_packet files files_write files_unlink (lit "out") [x20; x00; x12] 0 start
     = (Running start, []).
Proof.
  assert (len [x20; x00; x12] < 8) as H by (vm_compute; reflexivity).
  destruct (short_datagram_ignored files_write files_unlink (lit "out")
              [x20; x00; x12] 0 start (Receiver.State [] []) H) as [A _].
  split; [exact H|exact A].
Defined.

Lemma datagram_leaves_other_ids_witness :
  let st := State [(7, record_A 0)] ([] : files) in
  (forall q, parse announce_A = Some q -> msg_id q <> 7)
  /\ dict_get 7 (seen (state_of (fst (Discovery.on_packet files files_write files_unlink
                                        (lit "out") announce_A 5 st))))
     = dict_get 7 (seen st).
Proof.
  intros st.
  assert (forall q, parse announce_A = Some q -> msg_id q <> 7) as H.
  { intros q P. assert (parse announce_A = Some parsed_A) as P' by (vm_compute; reflexivity).
    rewrite P' in P. injection P as <-. discriminate. }
  split; [exact H|].
  exact (datagram_leaves_other_ids files_write files_unlink (lit "out") announce_A 5 st 7 H).
Defined.

Lemma repeated_announcement_refreshes_witness :
  let st1 := State [(4660, record_A 0)] [(lit "out/A.sdp", lit "s=A" ++ [10])] in
  let eff1 := [SinkWrite 4660 (lit "out/A.sdp") (lit "s=A" ++ [10]) false;
               Log (new_line (lit "A") (lit "out/A.sdp"))] in
  parse announce_A = Some parsed_A
  /\ deletion parsed_A = 0
  /\ Discovery.on_packet files files_write files_unlink (lit "out") announce_A 0 start
     = (Running st1, eff1)
  /\ exists st2,
      Discovery.on_packet files files_write files_unlink (lit "out") announce_A 10 st1
      = (Running st2, [])
      /\ world st2 = world st1
      /\ seen st2 = dict_set (msg_id parsed_A)
                      (Info (title_of parsed_A)
                            (Discovery.fpath_of (lit "out") (title_of parsed_A)) 10
                            (sdp_text parsed_A)) (seen start).
Proof.
  intros st1 eff1.
  assert (parse announce_A = Some parsed_A) as P by (vm_compute; reflexivity).
  assert (Discovery.on_packet files files_write files_unlink (lit "out") announce_A 0 start
          = (Running st1, eff1)) as H1 by (vm_compute; reflexivity).
  split; [exact P|]. split; [reflexivity|]. split; [exact H1|].
  exact (repeated_announcement_refreshes files_write files_unlink (lit "out")
           announce_A 0 10 start st1 eff1 parsed_A P eq_refl H1).
Defined.

Lemma create_then_delete_restores_witness :
  let st1 := State [(4660, record_A 0)] [(lit "out/A.sdp", lit "s=A" ++ [10])] in
  let eff1 := [SinkWrite 4660 (lit "out/A.sdp") (lit "s=A" ++ [10]) false;
               Log (new_line (lit "A") (lit "out/A.sdp"))] in
  parse announce_A = Some parsed_A
  /\ parse delete_1234 = Some parsed_delete
  /\ deletion parsed_delete <> 0
  /\ Discovery.on_packet files files_write files_unlink (lit "out") announce_A 0 start
     = (Running st1, eff1)
  /\ exists w raised,
      eff1 = [SinkWrite (msg_id parsed_A)
                (Discovery.fpath_of (lit "out") (title_of parsed_A))
                (sdp_text parsed_A ++ [10]) false;
              Log (new_line (title_of parsed_A)
                     (Discovery.fpath_of (lit "out") (title_of parsed_A)))]
      /\ Discovery.on_packet files files_write files_unlink (lit "out") delete_1234 20 st1 =
         (Running (State (seen start) w),
          [SinkRemove (msg_id parsed_A)
             (Discovery.fpath_of (lit "out") (title_of parsed_A)) raised;
           Log (removed_line (lit "Deleted")
                  (Info (title_of parsed_A)
                        (Discovery.fpath_of (lit "out") (title_of parsed_A)) 0
                        (sdp_text parsed_A)) (msg_id parsed_A))]).
Proof.
  intros st1 eff1.
  assert (parse announce_A = Some parsed_A) as P by (vm_compute; reflexivity).
  assert (parse delete_1234 = Some parsed_delete) as Pd by (vm_compute; reflexivity).
  assert (deletion parsed_delete <> 0) as Dd by (vm_compute; discriminate).
  assert (Discovery.on_packet files files_write files_unlink (lit "out") announce_A 0 start
          = (Running st1, eff1)) as H1 by (vm_compute; reflexivity).
  split; [exact P|]. split; [exact Pd|]. split; [exact Dd|]. split; [exact H1|].
  exact (create_then_delete_restores files_write files_unlink (lit "out")
           announce_A delete_1234 0 20 start st1 eff1 parsed_A parsed_delete
           P eq_refl Pd Dd eq_refl eq_refl H1).
Defined.

Lemma second_sweep_is_idle_witness :
  let st := State [(4660, record_A 0); (7, record_A 100)] ([] : files) in
  well_formed st
  /\ 300 <= 301
  /\ Discovery.sweeper_tick files files_unlink 300 300
       (fst (Discovery.sweeper_tick files files_unlink 300 301 st))
     = (fst (Discovery.sweeper_tick files files_unlink 300 301 st), []).
Proof.
  intros st.
  assert (well_formed st) as W.
  { repeat constructor; simpl; intuition discriminate. }
  assert (300 <= 301) as L by lia.
  split; [exact W|]. split; [exact L|].
  exact (second_sweep_is_idle files_unlink 300 301 300 st W L).
Defined.

Lemma listener_reads_header_witness :
  let addr := [x0a; x00; x00; x01] in
  let auth := [x01; x02; x03; x04] in
  len addr = 4 /\ len auth = 1 * 4
  /\ parse (pack_BBH (1 * 32 + 0 * 16 + 0 * 8 + 1 * 4 + 0 * 2 + 0) 1 4660
              ++ addr ++ auth ++ blit "s=A")
     = Some (Parsed (1 * 32 + 0 * 16 + 0 * 8 + 1 * 4 + 0 * 2 + 0) 1 4660 1 (8 + 1 * 4)
               (blit "s=A") (strip (decode_utf8_replace (blit "s=A")))).
Proof.
  intros addr auth.
  assert (len addr = 4) as H1 by reflexivity.
  assert (len auth = 1 * 4) as H2 by reflexivity.
  split; [exact H1|]. split; [exact H2|].
  apply (listener_reads_header 1 0 0 1 0 0 1 4660 addr auth (blit "s=A")); try lia;
    assumption.
Defined.

Lemma receiver_keeps_first_witness :
  let rst := Receiver.State [(4660, lit "s=Z")] ([] : files) in
  parse announce_A = Some parsed_A
  /\ Receiver.on_packet files files_write announce_A rst = (Receiver.Running rst, []).
Proof.
  intros rst.
  assert (parse announce_A = Some parsed_A) as P by (vm_compute; reflexivity).
  destruct (receiver_keeps_first files_write announce_A parsed_A rst P) as [H _].
  split; [exact P|]. exact (H eq_refl (lit "s=Z") eq_refl).
Defined.

Lemma sender_name_is_listener_title_witness :
  let sdp :=
    match make_sdp (lit " Cam 1 ") (lit "232.1.2.3") 5006 96 (lit "H264") 90000
            (lit "42e01f") (Some (lit "192.0.2.50")) 1 (lit "10.0.0.1") with
    | Some b => b
    | None => []
    end in
  make_sdp (lit " Cam 1 ") (lit "232.1.2.3") 5006 96 (lit "H264") 90000
    (lit "42e01f") (Some (lit "192.0.2.50")) 1 (lit "10.0.0.1") = Some sdp
  /\ exists q,
      parse (packet sdp addr_any) = Some q
      /\ deletion q = 0
      /\ parse_title (sdp_text q) = Some (strip (lit " Cam 1 "))
      /\ title_of q = or_str (Some (strip (lit " Cam 1 "))) (session_name (msg_id q)).
Proof.
  intros sdp.
  assert (make_sdp (lit " Cam 1 ") (lit "232.1.2.3") 5006 96 (lit "H264") 90000
            (lit "42e01f") (Some (lit "192.0.2.50")) 1 (lit "10.0.0.1") = Some sdp) as M
      by (vm_compute; reflexivity).
  split; [exact M|].
  exact (sender_name_is_listener_title _ _ _ _ _ _ _ _ _ _ sdp addr_any M eq_refl eq_refl).
Defined.

Lemma group_from_name_scoped_witness :
  forallb is_scalar (lit "Feed A - Ball") = true
  /\ exists x y,
      group_from_name (lit "Feed A - Ball")
      = Some (lit "239.255." ++ str_of_int x ++ lit "." ++ str_of_int y)
      /\ 0 <= x < 256 /\ 0 <= y < 256.
Proof.
  split; [reflexivity|].
  exact (group_from_name_scoped (lit "Feed A - Ball") eq_refl).
Defined.

(** ** A failed write on creation *)

(** The write on creation is not guarded: when it raises, the record
    has been stored already, the exception leaves [main], and none of
    the events that follow is processed. *)
Theorem write_failure_ends_loop {World : Type}
        (fs_write : str -> str -> World -> World * bool)
        (fs_unlink : str -> World -> World * bool)
        (out_dir : str) (expire_sec : Z)
        (pkt : bytes) (now : Z) (st : state World) (q : parsed) (rest : list event) :
  parse pkt = Some q ->
  deletion q = 0 ->
  dict_get (msg_id q) (seen st) = None ->
  let title := title_of q in
  let fpath := Discovery.fpath_of out_dir title in
  let content := sdp_text q ++ [10] in
  snd (fs_write fpath content (world st)) = true ->
  Discovery.run World fs_write fs_unlink out_dir expire_sec (Datagram pkt now :: rest) st
  = (Raised (State (dict_set (msg_id q) (Info title fpath now (sdp_text q)) (seen st))
                   (fst (fs_write fpath content (world st)))),
     [SinkWrite (msg_id q) fpath content true]).
Proof.
  intros P D A title fpath content F.
  rewrite run_cons. cbn [Discovery.step].
  rewrite (on_packet_announce fs_write fs_unlink out_dir pkt now st q P D).
  rewrite (on_announce_first fs_write out_dir q now st A).
  fold title. fold fpath. fold content. rewrite F. reflexivity.
Qed.

Lemma write_failure_ends_loop_witness :
  parse announce_A = Some parsed_A
  /\ dict_get (msg_id parsed_A) (seen (State [] tt)) = None
  /\ listen_broken [Datagram announce_A 0; Datagram announce_B 1; Tick 500] (State [] tt)
     = (Raised (State [(4660, record_A 0)] tt),
        [SinkWrite 4660 (lit "out/A.sdp") (lit "s=A" ++ [10]) true]).
Proof.
  assert (parse announce_A = Some parsed_A) as P by (vm_compute; reflexivity).
  split; [exact P|]. split; [reflexivity|].
  exact (write_failure_ends_loop broken_write broken_unlink (lit "out") 300
           announce_A 0 (State [] tt) parsed_A [Datagram announce_B 1; Tick 500]
           P eq_refl eq_refl eq_refl).
Defined.

(** ** The send loop of [sender.py] *)

Lemma length_times {A} (n : nat) (body : list A) :
  List.length (times n body) = (n * List.length body)%nat.
Proof.
  induction n as [|n IH]; cbn [times]; [reflexivity|].
  rewrite length_app, IH. reflexivity.
Qed.

Lemma times_flat_map {A B} (f : B -> list A) (d : B) (n : nat) :
  times n (f d) = flat_map f (repeat d n).
Proof.
  induction n as [|n IH]; cbn [times repeat flat_map]; [reflexivity|].
  rewrite IH. reflexivity.
Qed.

(** ** Paths under the output directory *)

Lemma split_sep_app (cur a b : str) :
  split_sep_from cur (a ++ 47 :: b) = split_sep_from cur a ++ split_sep_from [] b.
Proof.
  revert cur. induction a as [|c a IH]; intros cur; cbn [app split_sep_from].
  - reflexivity.
  - destruct (c =? 47); [rewrite IH; reflexivity|apply IH].
Qed.

Lemma split_sep_plain (cur b : str) :
  Forall (fun c => c <> 47) b -> split_sep_from cur b = [rev cur ++ b].
Proof.
  intros H. revert cur. induction H as [|c b Hc _ IH]; intros cur; cbn [split_sep_from].
  - rewrite app_nil_r. reflexivity.
  - destruct (Z.eqb_spec c 47); [contradiction|].
    rewrite IH. cbn [rev]. rewrite <- app_assoc. reflexivity.
Qed.

Lemma is_part_long (c d : Z) (r : str) : is_part (c :: d :: r) = true.
Proof.
  destruct (Z.eq_dec c 46) as [->|N]; [reflexivity|].
  destruct c as [|p|p]; try reflexivity.
  do 6 (destruct p as [p|p|]; try reflexivity).
Qed.

Lemma path_root_plain (c : Z) (r : str) : c <> 47 -> path_root (c :: r) = [].
Proof.
  intros N. destruct c as [|p|p]; try reflexivity.
  do 6 (destruct p as [p|p|]; try reflexivity). contradiction.
Qed.

Lemma path_root_one (d : Z) (r : str) : d <> 47 -> path_root (47 :: d :: r) = [47].
Proof.
  intros N. destruct d as [|p|p]; try reflexivity.
  do 6 (destruct p as [p|p|]; try reflexivity). contradiction.
Qed.

Lemma path_root_two (e : Z) (r : str) : e <> 47 -> path_root (47 :: 47 :: e :: r) = [47; 47].
Proof.
  intros N. destruct e as [|p|p]; try reflexivity.
  do 6 (destruct p as [p|p|]; try reflexivity). contradiction.
Qed.

Lemma path_root_join (a : str) (c : Z) (b : str) :
  c <> 47 ->
  path_root (posix_join a (c :: b)) = path_root a.
Proof.
  intros N. unfold posix_join. cbn [startswith].
  destruct (Z.eqb_spec c 47) as [|_]; [contradiction|]. cbn [andb].
  destruct a as [|x a]; [apply path_root_plain; exact N|].
  assert (forall e, endswith (x :: a) [47] = e ->
                    path_root ((x :: a) ++ (if e then c :: b else 47 :: c :: b))
                    = path_root (x :: a)) as K.
  { intros e E.
    destruct (Z.eq_dec x 47) as [->|Nx];
      [|destruct e; cbn [app]; rewrite !path_root_plain; auto].
    destruct a as [|y a].
    - cbn in E. subst e. cbn [app]. rewrite path_root_one by exact N. reflexivity.
    - destruct (Z.eq_dec y 47) as [->|Ny];
        [|destruct e; cbn [app]; rewrite !path_root_one; auto].
      destruct a as [|z a].
      + cbn in E. subst e. cbn [app]. rewrite path_root_two by exact N. reflexivity.
      + destruct (Z.eq_dec z 47) as [->|Nz]; [destruct e; reflexivity|].
        destruct e; cbn [app]; rewrite !path_root_two by exact Nz; reflexivity. }
  pose proof (K _ eq_refl) as K'.
  destruct (endswith (x :: a) [47]); exact K'.
Qed.

Lemma path_parts_join (a : str) (c d : Z) (b : str) :
  Forall (fun x => x <> 47) (c :: d :: b) ->
  path_parts (posix_join a (c :: d :: b)) = path_parts a ++ [c :: d :: b].
Proof.
  intros H. pose proof H as H'. inversion H' as [|? ? Nc _]. subst.
  unfold posix_join. cbn [startswith].
  destruct (Z.eqb_spec c 47) as [|_]; [contradiction|]. cbn [andb].
  unfold path_parts. destruct a as [|x a].
  - rewrite (split_sep_plain [] _ H). cbn [rev app filter split_sep_from].
    rewrite is_part_long. reflexivity.
  - destruct (endswith (x :: a) [47]) eqn:E.
    + unfold endswith in E. change (rev [47]) with [47] in E. cbn [rev] in E.
      destruct (rev a ++ [x]) as [|l r] eqn:R; [discriminate E|].
      cbn [startswith] in E.
      destruct (Z.eqb_spec l 47) as [->|]; [|cbn [andb] in E; discriminate E].
      assert (x :: a = rev r ++ [47]) as ->.
      { change (x :: a) with ([x] ++ a). rewrite <- (rev_involutive a).
        change [x] with (rev [x]). rewrite <- rev_app_distr, R. reflexivity. }
      rewrite <- !app_assoc. cbn [app]. rewrite !split_sep_app.
      rewrite (split_sep_plain [] _ H). cbn [split_sep_from rev app].
      rewrite !filter_app. cbn [filter]. rewrite is_part_long.
      cbn [is_part]. rewrite app_nil_r. reflexivity.
    + change ((x :: a) ++ [47] ++ c :: d :: b) with ((x :: a) ++ 47 :: c :: d :: b).
      rewrite split_sep_app, (split_sep_plain [] _ H), filter_app.
      cbn [rev app filter]. rewrite is_part_long. reflexivity.
Qed.

(** A title without a slash cannot leave the output directory: the file
    is the last component of the path, directly under the components of
    [out_dir], whose root it keeps. *)
Theorem plain_title_stays_inside (out_dir title : str) :
  Forall (fun c => c <> 47) title ->
  path_root (posix_join out_dir (Discovery.fname_of title)) = path_root out_dir
  /\ path_parts (posix_join out_dir (Discovery.fname_of title))
     = path_parts out_dir ++ [Discovery.fname_of title]
  /\ Discovery.fpath_of out_dir title
     = path_root out_dir ++ join_sep (path_parts out_dir ++ [Discovery.fname_of title]).
Proof.
  intros H.
  assert (Forall (fun c => c <> 47) (Discovery.fname_of title)) as F.
  { unfold Discovery.fname_of. apply Forall_app. split.
    - unfold replace_char. rewrite Forall_map. rewrite Forall_forall in *.
      intros c I. destruct (Z.eqb_spec c 32); [lia|auto].
    - repeat constructor; discriminate. }
  assert (exists c d b, Discovery.fname_of title = c :: d :: b) as (c & d & b & E).
  { unfold Discovery.fname_of. destruct (replace_char 32 95 title) as [|c [|d b]];
      cbn [app]; repeat eexists. }
  rewrite E in *. inversion F as [|? ? Nc _]. subst.
  pose proof (path_root_join out_dir c (d :: b) Nc) as R.
  pose proof (path_parts_join out_dir c d b F) as P.
  split; [exact R|]. split; [exact P|].
  unfold Discovery.fpath_of, path_div, path_str. rewrite E, R, P.
  destruct (path_root out_dir); [|reflexivity].
  destruct (path_parts out_dir); reflexivity.
Qed.

Lemma plain_title_stays_inside_witness :
  Forall (fun c => c <> 47) (lit "Feed A")
  /\ Discovery.fpath_of (lit "/srv//sdp/") (lit "Feed A")
     = path_root (lit "/srv//sdp/")
         ++ join_sep (path_parts (lit "/srv//sdp/") ++ [Discovery.fname_of (lit "Feed A")]).
Proof.
  assert (Forall (fun c => c <> 47) (lit "Feed A")) as H
      by (repeat constructor; discriminate).
  destruct (plain_title_stays_inside (lit "/srv//sdp/") (lit "Feed A") H) as (_ & _ & P).
  split; [exact H|exact P].
Defined.

(** ** The two threads *)

Import Threads.

Lemma dict_mem_set_same {V} (k : Z) (v : V) (d : dict V) : dict_mem k (dict_set k v d) = true.
Proof. unfold dict_mem. rewrite dict_get_set_same. reflexivity. Qed.

Lemma dict_mem_set_other {V} (k k' : Z) (v : V) (d : dict V) :
  k' <> k -> dict_mem k' (dict_set k v d) = dict_mem k' d.
Proof. intros N. unfold dict_mem. rewrite dict_get_set_other by exact N. reflexivity. Qed.

Lemma dict_mem_del_same {V} (k : Z) (d : dict V) : dict_mem k (dict_del k d) = false.
Proof. unfold dict_mem. rewrite dict_get_del_same. reflexivity. Qed.

Lemma dict_mem_del_other {V} (k k' : Z) (d : dict V) :
  k' <> k -> dict_mem k' (dict_del k d) = dict_mem k' d.
Proof. intros N. unfold dict_mem. rewrite dict_get_del_other by exact N. reflexivity. Qed.

Section ThreadFacts.

Context {World : Type}.
Variable fs_write : str -> str -> World -> World * bool.
Variable fs_unlink : str -> World -> World * bool.
Variable out_dir : str.
Variable expire_sec : Z.

Local Abbreviation recv := (Threads.recv World).
Local Abbreviation main_step := (Threads.main_step World fs_write fs_unlink out_dir).
Local Abbreviation scan := (Threads.scan World expire_sec).
Local Abbreviation sweep_step := (Threads.sweep_step World fs_unlink).
Local Abbreviation tstep := (Threads.tstep World fs_write fs_unlink out_dir expire_sec).
Local Abbreviation trun := (Threads.trun World fs_write fs_unlink out_dir expire_sec).
Local Abbreviation fresh_scans := (Threads.fresh_scans World fs_write fs_unlink out_dir expire_sec).
Local Abbreviation fresh_at := (Threads.fresh_at expire_sec).
Local Abbreviation to_delete := (Discovery.to_delete expire_sec).
Local Abbreviation sweeper_tick := (Discovery.sweeper_tick World fs_unlink expire_sec).
Local Abbreviation on_packet := (Discovery.on_packet World fs_write fs_unlink out_dir).

Implicit Types (ts : tstate World) (mid now : Z) (e : tevent) (evs : list tevent).

(** *** A quiet step keeps the account of [mid] *)

Lemma count_nil mid : removes mid [] = 0%nat /\ writes mid [] = 0%nat.
Proof. split; reflexivity. Qed.

Lemma settled_intro mid ts :
  existsb (Z.eqb mid) (targets (sweeper ts)) = false ->
  main_agrees mid (dict_mem mid (seen (shared ts))) (main ts) = true ->
  settled mid ts = true.
Proof.
  intros T A. unfold settled. rewrite T, A. reflexivity.
Qed.

Lemma settled_elim mid ts :
  settled mid ts = true ->
  existsb (Z.eqb mid) (targets (sweeper ts)) = false
  /\ main_agrees mid (dict_mem mid (seen (shared ts))) (main ts) = true.
Proof.
  unfold settled. intros S. apply andb_prop in S as [T A].
  apply negb_true_iff in T. split; assumption.
Qed.

Lemma accounted_same mid ts ts' :
  well_formed (shared ts') -> settled mid ts' = true ->
  seen (shared ts') = seen (shared ts) ->
  writing mid (main ts') = writing mid (main ts) ->
  accounted mid ts (TRunning ts', []).
Proof.
  intros W S E Wr. unfold accounted. cbn [fst snd shared_of written_at].
  split; [reflexivity|]. split; [|split; [|split]]; auto.
  - unfold written. rewrite E, Wr. reflexivity.
  - rewrite E. auto.
Qed.

Lemma accounted_recv mid pkt ts :
  well_formed (shared ts) -> settled mid ts = true ->
  is_delete_for mid pkt = false ->
  accounted mid ts (TRunning (recv pkt ts), []).
Proof.
  intros W S D. destruct (settled_elim _ _ S) as [T A].
  destruct ts as [[sn w] mpc spc]. cbn [shared main sweeper seen world] in *.
  unfold Threads.recv. cbn [shared main sweeper seen world].
  destruct mpc; try (apply accounted_same; auto; reflexivity).
  unfold is_delete_for in D. destruct (parse pkt) as [q|];
    [|apply accounted_same; auto; reflexivity].
  destruct (deletion q =? 0); cbn [negb andb] in *.
  - apply accounted_same; auto; try reflexivity.
    apply settled_intro; cbn [shared main sweeper seen main_agrees]; [exact T|].
    destruct (Z.eqb_spec (msg_id q) mid) as [->|]; [apply Bool.eqb_reflx|reflexivity].
  - apply Z.eqb_neq in D. unfold dict_pop.
    assert (dict_mem mid (dict_del (msg_id q) sn) = dict_mem mid sn) as E
        by (apply dict_mem_del_other; congruence).
    unfold accounted. cbn [fst snd shared_of written_at shared seen].
    split; [reflexivity|]. split; [|split; [|split]].
    + unfold written. cbn [shared main seen writing]. rewrite E. reflexivity.
    + rewrite E. auto.
    + apply dict_del_nodup. exact W.
    + apply settled_intro; cbn [shared main sweeper seen main_agrees]; [exact T|].
      apply negb_true_iff, Z.eqb_neq. exact D.
Qed.

Lemma accounted_main mid now ts :
  well_formed (shared ts) -> settled mid ts = true ->
  accounted mid ts (main_step now ts).
Proof.
  intros W S. destruct (settled_elim _ _ S) as [T A].
  destruct ts as [[sn w] mpc spc]. cbn [shared main sweeper seen world] in *.
  unfold Threads.main_step. cbn [shared main sweeper seen world].
  destruct mpc as [|m [i|]|p ft|p].
  - apply accounted_same; auto.
  - cbn [main_agrees] in A. apply negb_true_iff in A.
    destruct (fs_unlink (path i) w) as [w' r].
    unfold accounted. cbn [fst snd shared_of written_at shared seen].
    split; [rewrite !removes_cons; cbn [is_remove]; rewrite A; reflexivity|].
    split; [|split; [|split]]; auto.
    apply settled_intro; cbn [shared main sweeper seen main_agrees]; auto.
  - unfold accounted. cbn [fst snd shared_of written_at shared seen].
    split; [reflexivity|]. split; [|split; [|split]]; auto.
    apply settled_intro; cbn [shared main sweeper seen main_agrees]; auto.
  - cbn [main_agrees] in A.
    unfold accounted. cbn [fst snd shared_of written_at shared seen].
    split; [reflexivity|].
    destruct (Z.eqb_spec (msg_id p) mid) as [E|N].
    + subst mid. pose proof (dict_mem_set_same (msg_id p)
        (Info (title_of p) (Discovery.fpath_of out_dir (title_of p)) now (sdp_text p)) sn) as M.
      split; [|split; [|split]].
      * unfold written. cbn [shared main seen]. rewrite M.
        destruct ft; cbn [writing negb andb]; [rewrite Z.eqb_refl|].
        -- apply Bool.eqb_prop in A. symmetry in A. apply negb_true_iff in A. rewrite A.
           reflexivity.
        -- apply Bool.eqb_prop in A. symmetry in A. apply negb_false_iff in A. rewrite A.
           reflexivity.
      * intros _. exact M.
      * apply dict_set_nodup. exact W.
      * apply settled_intro; cbn [shared main sweeper seen]; [exact T|]. rewrite M.
        destruct ft; cbn [main_agrees]; [rewrite Z.eqb_refl|]; reflexivity.
    + assert (dict_mem mid (dict_set (msg_id p)
                (Info (title_of p) (Discovery.fpath_of out_dir (title_of p)) now (sdp_text p)) sn)
              = dict_mem mid sn) as M by (apply dict_mem_set_other; congruence).
      apply Z.eqb_neq in N.
      split; [|split; [|split]].
      * unfold written. cbn [shared main seen]. rewrite M.
        destruct ft; cbn [writing]; rewrite ?N; reflexivity.
      * rewrite M. auto.
      * apply dict_set_nodup. exact W.
      * apply settled_intro; cbn [shared main sweeper seen]; [exact T|].
        destruct ft; cbn [main_agrees]; rewrite ?N; reflexivity.
  - cbn [main_agrees] in A.
    destruct (fs_write _ _ w) as [w' r].
    assert (writes mid [SinkWrite (msg_id p) (Discovery.fpath_of out_dir (title_of p))
                          (sdp_text p ++ [10]) true]
            = if msg_id p =? mid then 1%nat else 0%nat) as C1.
    { rewrite writes_cons. cbn [is_write]. destruct (msg_id p =? mid); reflexivity. }
    assert (writes mid [SinkWrite (msg_id p) (Discovery.fpath_of out_dir (title_of p))
                          (sdp_text p ++ [10]) false;
                        Log (new_line (title_of p) (Discovery.fpath_of out_dir (title_of p)))]
            = if msg_id p =? mid then 1%nat else 0%nat) as C2.
    { rewrite !writes_cons. cbn [is_write]. destruct (msg_id p =? mid); reflexivity. }
    destruct r; unfold accounted, written_at, written, written_when_raised;
      cbn [fst snd shared_of shared seen main writing];
      (split; [reflexivity|]); rewrite ?C1, ?C2;
      destruct (msg_id p =? mid); cbn [negb]; rewrite ?A, ?andb_true_r, ?andb_false_r;
      cbn [andb]; repeat split; auto;
      try (destruct (dict_mem mid sn); reflexivity);
      try (apply settled_intro; cbn [shared main sweeper seen main_agrees]; auto).
Qed.

Lemma accounted_scan mid now ts :
  well_formed (shared ts) -> settled mid ts = true ->
  match sweeper ts with
  | AtSleep => fresh_at mid now (shared ts) = true
  | _ => True
  end ->
  accounted mid ts (TRunning (scan now ts), []).
Proof.
  intros W S F. destruct (settled_elim _ _ S) as [T A].
  destruct ts as [[sn w] mpc spc]. cbn [shared main sweeper seen world] in *.
  unfold Threads.scan. cbn [shared main sweeper seen world].
  destruct spc; try (apply accounted_same; auto; reflexivity).
  apply accounted_same; auto; try reflexivity.
  apply settled_intro; cbn [shared main sweeper seen targets]; [|exact A].
  rewrite (to_delete_mem expire_sec now sn mid W).
  unfold Threads.fresh_at in F. cbn [seen] in F.
  destruct (dict_get mid sn) as [i|]; [|reflexivity].
  unfold Discovery.expired. apply Z.leb_le in F.
  destruct (Z.gtb_spec (now - last_seen i) expire_sec); [lia|reflexivity].
Qed.

Lemma accounted_sweep mid ts :
  well_formed (shared ts) -> settled mid ts = true ->
  accounted mid ts (TRunning (fst (sweep_step ts)), snd (sweep_step ts)).
Proof.
  intros W S. destruct (settled_elim _ _ S) as [T A].
  destruct ts as [[sn w] mpc spc]. cbn [shared main sweeper seen world] in *.
  unfold Threads.sweep_step. cbn [shared main sweeper seen world].
  destruct spc as [|[|m rest]|m i rest]; cbn [targets existsb] in T.
  - apply accounted_same; auto.
  - apply accounted_same; auto.
  - apply orb_false_iff in T as [N T]. apply Z.eqb_neq in N.
    assert (dict_mem mid (dict_del m sn) = dict_mem mid sn) as E
        by (apply dict_mem_del_other; congruence).
    unfold dict_pop. destruct (dict_get m sn) as [i|]; cbn [fst snd];
      unfold accounted; cbn [fst snd shared_of written_at shared seen];
      (split; [reflexivity|]); (split; [|split; [|split]]).
    all: try (unfold written; cbn [shared main seen]; rewrite E; reflexivity).
    all: try (rewrite E; auto).
    all: try (apply dict_del_nodup; exact W).
    + apply settled_intro; cbn [shared main sweeper seen targets existsb];
        [|rewrite E; exact A].
      apply orb_false_iff. split; [apply Z.eqb_neq; exact N|exact T].
    + apply settled_intro; cbn [shared main sweeper seen targets];
        [exact T|rewrite E; exact A].
  - apply orb_false_iff in T as [N T]. apply Z.eqb_neq in N.
    destruct (fs_unlink (path i) w) as [w' r]. cbn [fst snd].
    unfold accounted. cbn [fst snd shared_of written_at shared seen].
    split.
    { rewrite !removes_cons. cbn [is_remove].
      destruct (Z.eqb_spec m mid); [congruence|reflexivity]. }
    split; [|split; [|split]]; auto.
    apply settled_intro; cbn [shared main sweeper seen targets]; auto.
Qed.

Lemma accounted_step mid e ts :
  well_formed (shared ts) -> settled mid ts = true ->
  match e with
  | Recv pkt => is_delete_for mid pkt = false
  | Scan now => match sweeper ts with
                | AtSleep => fresh_at mid now (shared ts) = true
                | _ => True
                end
  | _ => True
  end ->
  accounted mid ts (tstep e ts).
Proof.
  intros W S H. destruct e as [pkt|now|now|]; cbn [Threads.tstep].
  - apply accounted_recv; assumption.
  - apply accounted_main; assumption.
  - apply accounted_scan; assumption.
  - pose proof (accounted_sweep mid ts W S) as K.
    destruct (Threads.sweep_step _ _ _) as [ts' eff]. exact K.
Qed.

Lemma accounted_run mid evs ts :
  well_formed (shared ts) -> settled mid ts = true ->
  no_delete_for mid evs = true ->
  fresh_scans mid evs ts = true ->
  accounted mid ts (trun evs ts).
Proof.
  revert ts. induction evs as [|e rest IH]; intros ts W S D F.
  - apply accounted_same; auto.
  - cbn [no_delete_for forallb] in D. apply andb_prop in D as [De D].
    cbn [Threads.fresh_scans] in F. apply andb_prop in F as [Fe F].
    assert (accounted mid ts (tstep e ts)) as K.
    { apply accounted_step; auto. destruct e as [pkt|now|now|]; auto.
      - apply negb_true_iff. exact De.
      - destruct (sweeper ts); auto. }
    cbn [Threads.trun]. destruct (Threads.tstep _ _ _ _ _ e ts) as [[ts'|st'] eff]; [|exact K].
    destruct K as (R1 & W1 & P1 & W' & S'). cbn [fst snd shared_of written_at] in *.
    specialize (IH ts' W' S' D F).
    destruct (Threads.trun _ _ _ _ _ rest ts') as [o eff'].
    destruct IH as (R2 & W2 & P2 & E2). cbn [fst snd] in *.
    unfold accounted. cbn [fst snd].
    rewrite removes_app, writes_app, R1, R2. repeat split; auto. lia.
Qed.

Lemma no_scan_fresh mid evs ts : no_scan evs = true -> fresh_scans mid evs ts = true.
Proof.
  revert ts. induction evs as [|e rest IH]; intros ts H; [reflexivity|].
  cbn [no_scan forallb] in H. apply andb_prop in H as [He H].
  cbn [Threads.fresh_scans]. apply andb_true_intro. split.
  - destruct e; try reflexivity. discriminate He.
  - destruct (Threads.tstep _ _ _ _ _ e ts) as [[ts'|st'] eff]; [apply IH; exact H|reflexivity].
Qed.

(** *** A removal under way ends in a sink remove *)

Lemma due_step mid e ts :
  removal_due mid ts = true ->
  match tstep e ts with
  | (TRunning ts', eff) => (1 <= removes mid eff)%nat \/ removal_due mid ts' = true
  | (TRaised _, _) => True
  end.
Proof.
  intros H. destruct ts as [[sn w] mpc spc]. unfold removal_due in H.
  cbn [shared main sweeper seen] in H. apply orb_prop in H as [H|H].
  - (* main holds a popped record of mid *)
    destruct mpc as [|m [i|]|p ft|p]; try discriminate H.
    assert (forall sh' spc', removal_due mid (TState (World := World) sh' (AtUnlink m (Some i)) spc')
                             = true) as K.
    { intros. unfold removal_due. cbn [main]. rewrite H. reflexivity. }
    destruct e as [pkt|now|now|]; cbn [Threads.tstep].
    + right. apply K.
    + unfold Threads.main_step. cbn [main shared world seen sweeper].
      destruct (fs_unlink (path i) w) as [w' r]. left.
      rewrite !removes_cons. cbn [is_remove]. rewrite H. lia.
    + right. unfold Threads.scan. cbn [sweeper]. destruct spc; apply K.
    + unfold Threads.sweep_step. cbn [sweeper shared main seen world].
      destruct spc as [|[|x rest]|x i' rest]; try (right; apply K).
      * unfold dict_pop. destruct (dict_get x sn); right; apply K.
      * destruct (fs_unlink (path i') w) as [w' r]. right. apply K.
  - (* the sweeper has mid in hand or on its list *)
    destruct e as [pkt|now|now|]; cbn [Threads.tstep].
    + (* Recv *)
      right. unfold Threads.recv. cbn [main shared seen world sweeper].
      destruct mpc; try (unfold removal_due; cbn [main sweeper shared seen];
                         rewrite H; apply orb_true_r).
      destruct (parse pkt) as [q|];
        [|unfold removal_due; cbn [main sweeper shared seen]; rewrite H; apply orb_true_r].
      destruct (deletion q =? 0); cbn [negb];
        [unfold removal_due; cbn [main sweeper shared seen]; rewrite H; apply orb_true_r|].
      unfold dict_pop, removal_due. cbn [main sweeper shared seen].
      destruct (Z.eqb_spec (msg_id q) mid) as [E|N].
      * subst mid. destruct spc as [|l|x i' rest]; try discriminate H.
        -- apply andb_prop in H as [_ M]. unfold dict_mem in M.
           destruct (dict_get (msg_id q) sn); [|discriminate M].
           rewrite ?Z.eqb_refl; reflexivity.
        -- apply orb_prop in H as [H|H]; [rewrite H; apply orb_true_r|].
           apply andb_prop in H as [_ M]. unfold dict_mem in M.
           destruct (dict_get (msg_id q) sn); [|discriminate M].
           rewrite ?Z.eqb_refl; reflexivity.
      * assert (dict_mem mid (dict_del (msg_id q) sn) = dict_mem mid sn) as E
            by (apply dict_mem_del_other; congruence).
        rewrite E, H. apply orb_true_r.
    + (* MainStep *)
      unfold Threads.main_step. cbn [main shared seen world sweeper].
      destruct mpc as [|m [i|]|p ft|p].
      * right. unfold removal_due. cbn [main sweeper shared seen]. rewrite H. reflexivity.
      * destruct (fs_unlink (path i) w) as [w' r]. right.
        unfold removal_due. cbn [main sweeper shared seen]. rewrite H. reflexivity.
      * right. unfold removal_due. cbn [main sweeper shared seen]. rewrite H. reflexivity.
      * right. unfold removal_due. cbn [main sweeper shared seen].
        assert (dict_mem mid sn = true ->
                dict_mem mid (dict_set (msg_id p)
                  (Info (title_of p) (Discovery.fpath_of out_dir (title_of p)) now (sdp_text p))
                  sn) = true) as M.
        { intros M. destruct (Z.eq_dec mid (msg_id p)) as [->|N];
            [apply dict_mem_set_same|rewrite dict_mem_set_other by exact N; exact M]. }
        destruct spc as [|l|x i' rest]; try discriminate H.
        -- apply andb_prop in H as [L P]. rewrite L, (M P).
           destruct ft; reflexivity.
        -- apply orb_prop in H as [H|H].
           ++ rewrite H. destruct ft; reflexivity.
           ++ apply andb_prop in H as [L P]. rewrite L, (M P).
              destruct ft; cbn; apply orb_true_r.
      * destruct (fs_write _ _ w) as [w' [|]]; [exact I|]. right.
        unfold removal_due. cbn [main sweeper shared seen]. rewrite H. reflexivity.
    + (* Scan *)
      right. unfold Threads.scan. cbn [sweeper].
      destruct spc; [discriminate H| |];
        unfold removal_due; cbn [main sweeper shared seen]; rewrite H; apply orb_true_r.
    + (* Sweep *)
      unfold Threads.sweep_step. cbn [sweeper shared main seen world].
      destruct spc as [|[|x rest]|x i' rest]; try discriminate H.
      * cbn [existsb] in H. apply andb_prop in H as [L P].
        unfold dict_pop. destruct (Z.eqb_spec mid x) as [E|N].
        -- subst x. unfold dict_mem in P.
           destruct (dict_get mid sn); [|discriminate P]. right.
           unfold removal_due. cbn [main sweeper shared seen]. rewrite Z.eqb_refl.
           apply orb_true_r.
        -- cbn [orb] in L.
           assert (dict_mem mid (dict_del x sn) = true) as P'
               by (rewrite dict_mem_del_other by exact N; exact P).
           destruct (dict_get x sn); right; unfold removal_due;
             cbn [main sweeper shared seen]; rewrite L, P'; cbn [andb];
             rewrite ?orb_true_r; reflexivity.
      * destruct (fs_unlink (path i') w) as [w' r].
        apply orb_prop in H as [H|H].
        -- left. rewrite !removes_cons. cbn [is_remove]. rewrite H. lia.
        -- right. unfold removal_due. cbn [main sweeper shared seen]. rewrite H.
           apply orb_true_r.
Qed.

Lemma due_run mid evs ts :
  removal_due mid ts = true ->
  (1 <= removes mid (snd (trun evs ts)))%nat
  \/ match fst (trun evs ts) with
     | TRunning ts' => removal_due mid ts' = true
     | TRaised _ => True
     end.
Proof.
  revert ts. induction evs as [|e rest IH]; intros ts H; [right; exact H|].
  pose proof (due_step mid e ts H) as K. cbn [Threads.trun].
  destruct (Threads.tstep _ _ _ _ _ e ts) as [[ts'|st'] eff]; [|right; exact I].
  destruct K as [K|K].
  - destruct (Threads.trun _ _ _ _ _ rest ts') as [o eff']. left. cbn [snd].
    rewrite removes_app. lia.
  - specialize (IH ts' K). destruct (Threads.trun _ _ _ _ _ rest ts') as [o eff'].
    cbn [fst snd] in *. destruct IH as [IH|IH]; [left; rewrite removes_app; lia|right; exact IH].
Qed.

Lemma due_at_rest mid evs ts :
  removal_due mid ts = true ->
  at_rest (fst (trun evs ts)) = true ->
  (1 <= removes mid (snd (trun evs ts)))%nat.
Proof.
  intros H R. destruct (due_run mid evs ts H) as [K|K]; [exact K|].
  destruct (fst (trun evs ts)) as [ts'|st']; [|discriminate R].
  unfold at_rest in R. unfold removal_due in K.
  destruct (main ts'); try discriminate R. destruct (sweeper ts'); discriminate.
Qed.

(** *** Schedules in two parts, and a thread running alone *)

Lemma trun_app evs1 evs2 ts :
  trun (evs1 ++ evs2) ts =
  match trun evs1 ts with
  | (TRunning ts1, eff1) => let '(o, eff2) := trun evs2 ts1 in (o, eff1 ++ eff2)
  | (TRaised st, eff1) => (TRaised st, eff1)
  end.
Proof.
  revert ts. induction evs1 as [|e r IH]; intros ts.
  - cbn [app Threads.trun]. destruct (Threads.trun _ _ _ _ _ evs2 ts); reflexivity.
  - cbn [app Threads.trun].
    destruct (Threads.tstep _ _ _ _ _ e ts) as [[ts'|st] eff]; [|reflexivity].
    rewrite IH. destruct (Threads.trun _ _ _ _ _ r ts') as [[ts1|st1] eff1]; [|reflexivity].
    destruct (Threads.trun _ _ _ _ _ evs2 ts1) as [o eff2]. rewrite app_assoc. reflexivity.
Qed.

Lemma sweeper_asleep k (sh : state World) mpc :
  trun (repeat Sweep k) (TState sh mpc AtSleep) = (TRunning (TState sh mpc AtSleep), []).
Proof.
  induction k as [|k IH]; [reflexivity|].
  cbn [repeat Threads.trun Threads.tstep]. unfold Threads.sweep_step. cbn [sweeper].
  rewrite IH. reflexivity.
Qed.

Lemma trun_sweep evs ts :
  trun (Sweep :: evs) ts =
  let '(o, eff') := trun evs (fst (sweep_step ts)) in (o, snd (sweep_step ts) ++ eff').
Proof.
  cbn [Threads.trun Threads.tstep]. destruct (Threads.sweep_step _ _ ts). reflexivity.
Qed.

Lemma sweep_uninterrupted l : forall (sh : state World) mpc k,
  (2 * List.length l + 1 <= k)%nat ->
  trun (repeat Sweep k) (TState sh mpc (AtPop l)) =
  (TRunning (TState (fst (Discovery.sweep World fs_unlink l sh)) mpc AtSleep),
   snd (Discovery.sweep World fs_unlink l sh)).
Proof.
  induction l as [|m rest IH]; intros sh mpc k K.
  - destruct k as [|k]; [cbn [List.length] in K; lia|].
    cbn [repeat]. rewrite trun_sweep. unfold Threads.sweep_step.
    cbn [sweeper shared main fst snd]. rewrite sweeper_asleep. reflexivity.
  - destruct k as [|[|k]]; try (cbn [List.length] in K; lia).
    cbn [repeat]. rewrite trun_sweep. unfold Threads.sweep_step at 1 2.
    cbn [sweeper shared main Discovery.sweep]. unfold dict_pop.
    destruct (dict_get m (seen sh)) as [i|]; cbn [fst snd].
    + rewrite trun_sweep. unfold Threads.sweep_step.
      cbn [sweeper shared main seen world].
      destruct (fs_unlink (path i) (world sh)) as [w r]. cbn [fst snd].
      rewrite IH by (cbn [List.length] in K; lia).
      destruct (Discovery.sweep World fs_unlink rest _) as [st' eff]. reflexivity.
    + change (Sweep :: repeat Sweep k) with (repeat Sweep (S k)).
      rewrite IH by (cbn [List.length] in K; lia).
      destruct (Discovery.sweep World fs_unlink rest _) as [st' eff]. reflexivity.
Qed.

Lemma sweeper_turn now ts k :
  sweeper ts = AtSleep ->
  (2 * List.length (to_delete now (seen (shared ts))) + 1 <= k)%nat ->
  trun (Scan now :: repeat Sweep k) ts =
  (TRunning (TState (fst (sweeper_tick now (shared ts))) (main ts) AtSleep),
   snd (sweeper_tick now (shared ts))).
Proof.
  intros SL K. cbn [Threads.trun Threads.tstep]. unfold Threads.scan. rewrite SL.
  rewrite (sweep_uninterrupted _ _ _ _ K). reflexivity.
Qed.


(** *** The first announcement for an id *)

Lemma written_from_nil q : written_from out_dir q [].
Proof. intros m f c r []. Qed.

Lemma written_from_app q eff1 eff2 :
  written_from out_dir q eff1 -> written_from out_dir q eff2 ->
  written_from out_dir q (eff1 ++ eff2).
Proof.
  intros A B m f c r H. apply in_app_or in H as [H|H]; [exact (A m f c r H)|exact (B m f c r H)].
Qed.

Lemma written_from_remove q m f r line :
  written_from out_dir q [SinkRemove m f r; Log line].
Proof.
  intros m' f' c' r' [H|[H|[]]]; discriminate H.
Qed.

Lemma first_step q e ts :
  well_formed (shared ts) -> settled (msg_id q) ts = true ->
  upserted (msg_id q) ts = true -> writes_first q (main ts) ->
  match e with
  | Recv pkt => is_delete_for (msg_id q) pkt = false
  | Scan now => match sweeper ts with
                | AtSleep => fresh_at (msg_id q) now (shared ts) = true
                | _ => True
                end
  | _ => True
  end ->
  match tstep e ts with
  | (TRunning ts', eff) =>
      upserted (msg_id q) ts' = true /\ writes_first q (main ts') /\ written_from out_dir q eff
  | (TRaised _, eff) => written_from out_dir q eff
  end.
Proof.
  intros W S U F Q.
  pose proof (accounted_step (msg_id q) e ts W S Q) as (_ & _ & P & _).
  destruct ts as [[sn w] mpc spc]. unfold upserted in *.
  cbn [shared main sweeper seen world] in *.
  destruct e as [pkt|now|now|]; cbn [Threads.tstep] in *.
  - (* Recv *)
    cbn [fst snd shared_of] in P. split; [|split; [|apply written_from_nil]].
    + destruct (dict_mem (msg_id q) sn) eqn:M; [rewrite (P eq_refl); reflexivity|].
      cbn [orb] in U. destruct mpc; try discriminate U.
      unfold Threads.recv. cbn [main shared seen]. rewrite M, U. reflexivity.
    + unfold Threads.recv. cbn [main shared sweeper seen world].
      destruct mpc; try exact F.
      rewrite orb_false_r in U.
      destruct (parse pkt) as [p|]; [|exact I].
      destruct (negb (deletion p =? 0)).
      * unfold dict_pop. exact I.
      * cbn [main writes_first]. intros E T. rewrite E, U in T. discriminate T.
  - (* MainStep *)
    unfold Threads.main_step in *. cbn [main shared sweeper seen world] in *.
    destruct mpc as [|m [i|]|p ft|p].
    + cbn [fst snd shared_of] in P. split; [exact U|]. split; [exact I|apply written_from_nil].
    + destruct (fs_unlink (path i) w) as [w' r]. cbn [fst snd shared_of shared seen main] in *.
      split; [exact U|]. split; [exact I|apply written_from_remove].
    + cbn [fst snd shared_of shared seen main] in *.
      split; [exact U|]. split; [exact I|].
      intros m' f' c' r' [H|[]]. discriminate H.
    + cbn [fst snd shared_of shared seen main] in *.
      split; [|split; [|apply written_from_nil]].
      * destruct (dict_mem (msg_id q) sn) eqn:M; [rewrite (P eq_refl); reflexivity|].
        cbn [orb] in U. apply Z.eqb_eq in U. rewrite <- U, dict_mem_set_same. reflexivity.
      * destruct ft; cbn [writes_first] in *; [|exact I]. intros E. exact (F E eq_refl).
    + destruct (fs_write _ _ w) as [w' [|]]; cbn [fst snd shared_of shared seen main] in *.
      * intros m' f' c' r' [H|[]] E. injection H as <- <- <- <-.
        rewrite (F E). split; reflexivity.
      * split; [rewrite orb_false_r in *; exact U|]. split; [exact I|].
        intros m' f' c' r' [H|[H|[]]] E; [|discriminate H]. injection H as <- <- <- <-.
        rewrite (F E). split; reflexivity.
  - (* Scan *)
    cbn [fst snd shared_of] in P. unfold Threads.scan in *. cbn [sweeper shared main] in *.
    split; [|split; [|apply written_from_nil]]; destruct spc; assumption.
  - (* Sweep *)
    unfold Threads.sweep_step in *. cbn [sweeper shared main seen world] in *.
    destruct spc as [|[|x rest]|x i rest].
    + cbn [fst snd shared_of shared seen main] in *.
      split; [exact U|]. split; [exact F|apply written_from_nil].
    + cbn [fst snd shared_of shared seen main] in *.
      split; [exact U|]. split; [exact F|apply written_from_nil].
    + unfold dict_pop in *.
      destruct (dict_get x sn); cbn [fst snd shared_of shared seen main] in *;
        (split; [|split; [exact F|apply written_from_nil]]);
        (destruct (dict_mem (msg_id q) sn) eqn:M; [rewrite (P eq_refl); reflexivity|];
         cbn [orb] in U; rewrite U; apply orb_true_r).
    + destruct (fs_unlink (path i) w) as [w' r]. cbn [fst snd shared_of shared seen main] in *.
      split; [exact U|]. split; [exact F|apply written_from_remove].
Qed.

Lemma first_run q evs ts :
  well_formed (shared ts) -> settled (msg_id q) ts = true ->
  upserted (msg_id q) ts = true -> writes_first q (main ts) ->
  no_delete_for (msg_id q) evs = true ->
  fresh_scans (msg_id q) evs ts = true ->
  written_from out_dir q (snd (trun evs ts))
  /\ match fst (trun evs ts) with
     | TRunning ts' => upserted (msg_id q) ts' = true
     | TRaised _ => True
     end.
Proof.
  revert ts. induction evs as [|e rest IH]; intros ts W S U F D Q.
  - split; [apply written_from_nil|exact U].
  - cbn [no_delete_for forallb] in D. apply andb_prop in D as [De D].
    cbn [Threads.fresh_scans] in Q. apply andb_prop in Q as [Qe Q].
    assert (match e with
            | Recv pkt => is_delete_for (msg_id q) pkt = false
            | Scan now => match sweeper ts with
                          | AtSleep => fresh_at (msg_id q) now (shared ts) = true
                          | _ => True
                          end
            | _ => True
            end) as K.
    { destruct e as [pkt|now|now|]; auto.
      - apply negb_true_iff. exact De.
      - destruct (sweeper ts); auto. }
    pose proof (accounted_step (msg_id q) e ts W S K) as (_ & _ & _ & A).
    pose proof (first_step q e ts W S U F K) as B.
    cbn [Threads.trun].
    destruct (Threads.tstep _ _ _ _ _ e ts) as [[ts'|st'] eff]; cbn [fst snd] in *;
      [|split; [exact B|exact I]].
    destruct A as [W' S']. destruct B as (U' & F' & B).
    specialize (IH ts' W' S' U' F' D Q).
    destruct (Threads.trun _ _ _ _ _ rest ts') as [o eff']. cbn [fst snd] in *.
    destruct IH as [C E]. split; [apply written_from_app; assumption|exact E].
Qed.

(** *** The table keeps distinct keys *)

Lemma tstep_well_formed e ts :
  well_formed (shared ts) -> well_formed (shared_of (fst (tstep e ts))).
Proof.
  intros W. destruct ts as [[sn w] mpc spc]. unfold well_formed in *.
  cbn [shared seen] in W.
  destruct e as [pkt|now|now|]; cbn [Threads.tstep].
  - unfold Threads.recv. cbn [main shared sweeper seen world fst shared_of].
    destruct mpc; try exact W. destruct (parse pkt) as [p|]; [|exact W].
    destruct (negb (deletion p =? 0)); [|exact W].
    unfold dict_pop. cbn [shared seen]. apply dict_del_nodup, W.
  - unfold Threads.main_step. cbn [main shared sweeper seen world].
    destruct mpc as [|m [i|]|p ft|p]; try exact W.
    + destruct (fs_unlink (path i) w) as [w' r]. exact W.
    + apply dict_set_nodup, W.
    + destruct (fs_write _ _ w) as [w' [|]]; exact W.
  - unfold Threads.scan. cbn [sweeper shared main]. destruct spc; exact W.
  - unfold Threads.sweep_step. cbn [sweeper shared main seen world].
    destruct spc as [|[|x rest]|x i rest]; try exact W.
    + unfold dict_pop. destruct (dict_get x sn); apply dict_del_nodup, W.
    + destruct (fs_unlink (path i) w) as [w' r]. exact W.
Qed.

Lemma run_well_formed evs ts :
  well_formed (shared ts) -> well_formed (shared_of (fst (trun evs ts))).
Proof.
  revert ts. induction evs as [|e rest IH]; intros ts W; [exact W|].
  pose proof (tstep_well_formed e ts W) as V. cbn [Threads.trun].
  destruct (Threads.tstep _ _ _ _ _ e ts) as [[ts'|st'] eff]; cbn [fst shared_of] in *;
    [|exact V].
  specialize (IH ts' V). destruct (Threads.trun _ _ _ _ _ rest ts') as [o eff']. exact IH.
Qed.

(** *** A removal once begun *)

Lemma trun_recv pkt evs ts : trun (Recv pkt :: evs) ts = trun evs (recv pkt ts).
Proof.
  cbn [Threads.trun Threads.tstep]. destruct (Threads.trun _ _ _ _ _ evs _). reflexivity.
Qed.

Lemma trun_scan now evs ts : trun (Scan now :: evs) ts = trun evs (scan now ts).
Proof.
  cbn [Threads.trun Threads.tstep]. destruct (Threads.trun _ _ _ _ _ evs _). reflexivity.
Qed.

Lemma due_later mid evs1 evs2 ts ts1 eff1 :
  trun evs1 ts = (TRunning ts1, eff1) ->
  removal_due mid ts1 = true ->
  at_rest (fst (trun (evs1 ++ evs2) ts)) = true ->
  (1 <= removes mid (snd (trun (evs1 ++ evs2) ts)))%nat.
Proof.
  intros H D. rewrite trun_app, H. pose proof (due_at_rest mid evs2 ts1 D) as K.
  destruct (Threads.trun _ _ _ _ _ evs2 ts1) as [o eff2]. cbn [fst snd] in *.
  intros R. specialize (K R). rewrite removes_app. lia.
Qed.

Lemma due_after_delete mid dpkt ts :
  main ts = AtRecv -> dict_mem mid (seen (shared ts)) = true ->
  is_delete_for mid dpkt = true ->
  removal_due mid (recv dpkt ts) = true.
Proof.
  intros M P D. unfold Threads.recv. rewrite M. unfold is_delete_for in D.
  destruct (parse dpkt) as [d|]; [|discriminate D]. apply andb_prop in D as [D E].
  rewrite D. apply Z.eqb_eq in E. subst mid. unfold dict_pop, dict_mem in *.
  destruct (dict_get (msg_id d) (seen (shared ts))); [|discriminate P].
  unfold removal_due. cbn [main]. rewrite Z.eqb_refl. reflexivity.
Qed.

Lemma due_after_scan mid now ts i :
  well_formed (shared ts) -> sweeper ts = AtSleep ->
  dict_get mid (seen (shared ts)) = Some i -> now - last_seen i > expire_sec ->
  removal_due mid (scan now ts) = true.
Proof.
  intros W SL G T. unfold Threads.scan. rewrite SL. unfold removal_due.
  cbn [main sweeper shared]. rewrite (to_delete_mem expire_sec now _ mid W), G.
  unfold dict_mem. rewrite G. unfold Discovery.expired.
  destruct (Z.gtb_spec (now - last_seen i) expire_sec); [apply orb_true_r|lia].
Qed.

Lemma written_at_le mid (o : toutcome World) : (written_at mid o <= 1)%nat.
Proof.
  destruct o as [ts'|st']; unfold written_at, written, written_when_raised.
  - destruct (_ && _); lia.
  - destruct (dict_mem _ _); lia.
Qed.

(** *** The claims on the two threads *)




End ThreadFacts.

(** ** The claims at concrete schedules *)




(** ** The document *)

Lemma decode_ill_formed_lead (b : byte) (rest : bytes) :
  128 <= b2z b < 194 \/ 245 <= b2z b ->
  decode_utf8_replace (b :: rest) = 65533 :: decode_utf8_replace rest.
Proof.
  intros H. unfold decode_utf8_replace. cbn [map utf8_replace].
  destruct (Z.ltb_spec (b2z b) 128); [lia|].
  destruct (Z.ltb_spec (b2z b) 194); [reflexivity|].
  destruct (Z.ltb_spec (b2z b) 224); [lia|].
  destruct (Z.ltb_spec (b2z b) 240); [lia|].
  destruct (Z.ltb_spec (b2z b) 245); [lia|reflexivity].
Qed.

(** C10.  The document kept for an announcement is the payload decoded
    as UTF-8 with replacement and stripped, not the payload itself.
    Where the payload is the UTF-8 encoding of a text, the document is
    that text stripped; a byte that cannot start a UTF-8 sequence
    becomes U+FFFD, as does a sequence cut short.  The document
    neither starts nor ends with white space, and the file written for
    a new session holds it followed by one newline. *)
Theorem document_is_stripped_text {World : Type}
        (fs_write : str -> str -> World -> World * bool)
        (fs_unlink : str -> World -> World * bool)
        (out_dir : str) (pkt : bytes) (now : Z) (st : state World) (q : parsed) :
  parse pkt = Some q ->
  deletion q = 0 ->
  sdp_text q = strip (decode_utf8_replace (slice_from (8 + auth_len q * 4) pkt))
  /\ (forall s, encode_utf8 s = Some (slice_from (8 + auth_len q * 4) pkt) ->
                sdp_text q = strip s)
  /\ (forall b rest, slice_from (8 + auth_len q * 4) pkt = b :: rest ->
                     128 <= b2z b < 194 \/ 245 <= b2z b ->
                     sdp_text q = strip (65533 :: decode_utf8_replace rest))
  /\ option_map sdp
       (dict_get (msg_id q)
          (seen (state_of (fst (Discovery.on_packet World fs_write fs_unlink
                                  out_dir pkt now st)))))
     = Some (sdp_text q)
  /\ (dict_get (msg_id q) (seen st) = None ->
      exists fpath raised rest,
        snd (Discovery.on_packet World fs_write fs_unlink out_dir pkt now st)
        = SinkWrite (msg_id q) fpath (sdp_text q ++ [10]) raised :: rest)
  /\ (forall c, hd_error (sdp_text q) = Some c -> isspace c = false)
  /\ (forall c, hd_error (rev (sdp_text q)) = Some c -> isspace c = false)
  /\ option_map sdp_text (parse (packet [x20; x76; x3d; x30; x0a] addr_any))
     = Some [118; 61; 48]
  /\ option_map sdp_text
       (parse (packet [x20; xc3; xa9; xff; x41; xe2; x82; x0a] addr_any))
     = Some [233; 65533; 65; 65533]
  /\ option_map sdp_text (parse (packet [xff] addr_any))
     = option_map sdp_text (parse (packet [xc0] addr_any)).
Proof.
  intros P D. destruct (parse_inv pkt q P) as (L & O & Y & T).
  rewrite (on_packet_announce fs_write fs_unlink out_dir pkt now st q P D).
  rewrite O in Y. rewrite Y in T.
  split; [exact T|]. split; [|split].
  - intros s E. rewrite T, (encode_then_decode s _ E). reflexivity.
  - intros b rest E H. rewrite T, E, (decode_ill_formed_lead b rest H). reflexivity.
  - split; [|split; [|split; [|split; [|split; [|split]]]]].
    + rewrite on_announce_record. reflexivity.
    + intros A. rewrite (on_announce_first fs_write out_dir q now st A).
      destruct (snd (fs_write _ _ _)); do 3 eexists; reflexivity.
    + intros c. rewrite T. apply strip_ends.
    + intros c. rewrite T. apply strip_ends.
    + vm_compute. reflexivity.
    + vm_compute. reflexivity.
    + vm_compute. reflexivity.
Qed.

Lemma document_is_stripped_text_witness :
  let pkt := [x20; x00; x12; x34; x00; x00; x00; x00; x20; xc3; xa9; xff; x0a] in
  let q := Parsed 32 0 4660 0 8 [x20; xc3; xa9; xff; x0a] [233; 65533] in
  parse pkt = Some q
  /\ deletion q = 0
  /\ exists fpath raised rest,
      snd (Discovery.on_packet files files_write files_unlink (lit "out") pkt 0 start)
      = SinkWrite 4660 fpath [233; 65533; 10] raised :: rest.
Proof.
  intros pkt q.
  assert (parse pkt = Some q) as P by (vm_compute; reflexivity).
  destruct (document_is_stripped_text files_write files_unlink (lit "out")
              pkt 0 start q P eq_refl) as (_ & _ & _ & _ & H & _).
  split; [exact P|]. split; [reflexivity|exact (H eq_refl)].
Defined.

(** ** A thread running alone *)


